(** * Hakushicyatto backend: the room message store, the client reconciler,
      the SVG normaliser, the ink encoder and the upload boundary.

    A shallow embedding of [src/server/index.ts] (the [Chat] room server,
    [handleSvgUpload], [normalizeSvg]) and of the client [App] /
    [HandwritingCanvas] components, with the properties of the
    synchronisation engine and of the geometry pipeline stated over it.

    Conventions of the embedding.
    - A JavaScript string is a [string]; an [ascii] stands for one code unit.
    - A JavaScript number is a [float] (IEEE 754 binary64), except message
      timestamps, which are the integer milliseconds of [Date.now()] and are
      kept in [Z].
    - [undefined] and [null] of an optional field are both [None].
    - Builtins whose text algorithms are not part of the repository
      ([JSON.parse], [JSON.stringify], [Number], [parseFloat],
      [Number.prototype.toString], [toFixed]) are section variables. *)

From Stdlib Require Import List String Ascii ZArith Bool Lia.
From Stdlib Require Import Floats.
Import ListNotations.

Local Open Scope string_scope.
Local Open Scope list_scope.

(** ** Shared types ([src/shared.ts]) *)

Record SvgAttachment : Type := mkSvg {
  svg_id : string;
  url : string;
  filename : string
}.

Inductive Role : Type := RoleUser | RoleAssistant.

Record ChatMessage : Type := mkChat {
  id : string;
  content : string;
  user : string;
  role : Role;
  timestamp : option Z;
  svgs : option (list SvgAttachment)
}.

(** The tagged union [Message]: ["add"], ["update"] and ["all"]. *)
Inductive Message : Type :=
| Add (m : ChatMessage)
| Update (m : ChatMessage)
| All (messages : list ChatMessage).

(** ** Durable storage: the [messages] table

    [CREATE TABLE messages (id TEXT PRIMARY KEY, user TEXT, role TEXT,
    content TEXT, timestamp INTEGER, svgs TEXT)].  The table is the list of
    its rows in rowid order, which is the order [SELECT * FROM messages]
    scans them in.  The [svgs] column holds the JSON text of the attachment
    list; it is kept as the list it encodes. *)

Record Row : Type := mkRow {
  row_id : string;
  row_user : string;
  row_role : Role;
  row_content : string;
  row_timestamp : option Z;
  row_svgs : option (list SvgAttachment)
}.

Definition Table : Type := list Row.

(** [INSERT INTO messages (...) VALUES (r) ON CONFLICT (id) DO UPDATE SET
    content = ?, timestamp = ?, svgs = ?]: a row with the same primary key
    keeps its rowid and its [user] and [role] columns. *)
Fixpoint sql_upsert (r : Row) (t : Table) : Table :=
  match t with
  | [] => [r]
  | r0 :: t' =>
      if row_id r0 =? row_id r
      then mkRow (row_id r0) (row_user r0) (row_role r0)
                 (row_content r) (row_timestamp r) (row_svgs r) :: t'
      else r0 :: sql_upsert r t'
  end.

(** [x || null] on an optional number: [undefined], [null] and [0] are falsy. *)
Definition or_null (t : option Z) : option Z :=
  match t with
  | Some 0%Z => None
  | Some z => Some z
  | None => None
  end.

(** ** The room server [Chat] *)

Definition Connection : Type := string.

(** What a handler does, in the order it does it.  [MemoryWrite] is a write
    of [this.messages] (an assignment or a push), with the list it leaves. *)
Inductive Action : Type :=
| Broadcast (payload : string)
| Send (to : Connection) (payload : string)
| MemoryWrite (msgs : list ChatMessage)
| SqlCreateTable
| SqlSelectAll
| SqlUpsert (r : Row).

Record Chat : Type := mkServer {
  messages : list ChatMessage;
  storage : Table;
  trace : list Action
}.

(** A JavaScript completion: a value, or a thrown error. *)
Inductive Completion (A : Type) : Type :=
| Normal (a : A)
| Throw (name : string).
Arguments Normal {A} a.
Arguments Throw {A} name.

(** Methods of [Chat]: they read and write [this] and may throw. *)
Definition Method (A : Type) : Type := Chat -> Completion A * Chat.

Definition ret {A} (a : A) : Method A := fun s => (Normal a, s).

Definition bind {A B} (c : Method A) (k : A -> Method B) : Method B :=
  fun s =>
    match c s with
    | (Normal a, s') => k a s'
    | (Throw e, s') => (Throw e, s')
    end.

Definition throw {A} (e : string) : Method A := fun s => (Throw e, s).

Declare Scope method_scope.
Delimit Scope method_scope with method.
Notation "x <- c ;; k" := (bind c (fun x => k))
  (at level 61, c at next level, right associativity) : method_scope.
Notation "c ;; k" := (bind c (fun _ => k))
  (at level 61, right associativity) : method_scope.
Local Open Scope method_scope.

Definition does (a : Action) (s : Chat) : Chat :=
  mkServer (messages s) (storage s) (trace s ++ [a]).

Definition this_messages : Method (list ChatMessage) :=
  fun s => (Normal (messages s), s).

Definition set_messages (msgs : list ChatMessage) : Method unit :=
  fun s => (Normal tt, does (MemoryWrite msgs) (mkServer msgs (storage s) (trace s))).

Definition sql_create_table : Method unit :=
  fun s => (Normal tt, does SqlCreateTable s).

Definition sql_select_all : Method (list Row) :=
  fun s => (Normal (storage s), does SqlSelectAll s).

Definition sql_exec_upsert (r : Row) : Method unit :=
  fun s => (Normal tt,
            does (SqlUpsert r) (mkServer (messages s) (sql_upsert r (storage s)) (trace s))).

Definition broadcast (payload : string) : Method unit :=
  fun s => (Normal tt, does (Broadcast payload) s).

Definition connection_send (c : Connection) (payload : string) : Method unit :=
  fun s => (Normal tt, does (Send c payload) s).

Definition exec {A} (c : Method A) (s : Chat) : Chat := snd (c s).

(** [rows.map((row) => ({ id: row.id, ... }))] of [onStart]. *)
Definition message_of_row (row : Row) : ChatMessage :=
  mkChat (row_id row) (row_content row) (row_user row) (row_role row)
         (row_timestamp row)
         (match row_svgs row with Some l => Some l | None => None end).

Definition onStart : Method unit :=
  sql_create_table ;;
  rows <- sql_select_all ;;
  set_messages (map message_of_row rows).

(** The values bound to the statement of [saveMessage]. *)
Definition row_of_message (message : ChatMessage) : Row :=
  let svgsJson := match svgs message with Some l => Some l | None => None end in
  mkRow (id message) (user message) (role message) (content message)
        (or_null (timestamp message)) svgsJson.

Definition saveMessage (message : ChatMessage) : Method unit :=
  msgs <- this_messages ;;
  let existingMessage := find (fun m => id m =? id message) msgs in
  match existingMessage with
  | Some _ =>
      set_messages (map (fun m => if id m =? id message then message else m) msgs)
  | None =>
      set_messages (msgs ++ [message])
  end ;;
  sql_exec_upsert (row_of_message message).

Section Wire.

(** [JSON.parse] at type [Message] ([None]: it throws a [SyntaxError]) and
    [JSON.stringify]. *)
Variable JSON_parse : string -> option Message.
Variable JSON_stringify : Message -> string.

(** A joining client is sent the snapshot: the whole list, tagged [all]. *)
Definition onConnect (connection : Connection) : Method unit :=
  msgs <- this_messages ;;
  connection_send connection (JSON_stringify (All msgs)).

Definition onMessage (connection : Connection) (message : string) : Method unit :=
  broadcast message ;;
  match JSON_parse message with
  | None => throw "SyntaxError"
  | Some (Add p) | Some (Update p) =>
      saveMessage (mkChat (id p) (content p) (user p) (role p) (timestamp p) (svgs p))
  | Some (All _) => ret tt
  end.

End Wire.

(** A room before its first activation: nothing in memory, an empty table. *)
Definition empty_room : Chat := mkServer [] [] [].

(** A sequence of [saveMessage] calls. *)
Fixpoint appends (ms : list ChatMessage) : Method unit :=
  match ms with
  | [] => ret tt
  | m :: rest => saveMessage m ;; appends rest
  end.

(** ** The client reconciler ([App], the [onMessage] handler of the socket)

    The handler closes over [messages], the list of the render it was created
    in ([rendered] below), and hands React a state updater, which React
    applies to the state of the moment. *)

Fixpoint findIndex {A : Type} (p : A -> bool) (l : list A) : option nat :=
  match l with
  | [] => None
  | a :: l' =>
      if p a then Some 0
      else match findIndex p l' with
           | Some i => Some (S i)
           | None => None
           end
  end.

(** [l.slice(0, i)] and [l.slice(i)] for an index within [0 .. l.length]. *)
Definition slice_to {A : Type} (i : nat) (l : list A) : list A := firstn i l.
Definition slice_from {A : Type} (i : nat) (l : list A) : list A := skipn i l.

Definition client_onMessage (rendered : list ChatMessage) (message : Message)
  : list ChatMessage -> list ChatMessage :=
  match message with
  | Add p =>
      let entry := mkChat (id p) (content p) (user p) (role p) (timestamp p) (svgs p) in
      match findIndex (fun m => id m =? id p) rendered with
      | None => fun messages => messages ++ [entry]
      | Some foundIndex =>
          fun messages =>
            slice_to foundIndex messages ++ [entry] ++ slice_from (foundIndex + 1) messages
      end
  | Update p =>
      let entry := mkChat (id p) (content p) (user p) (role p) (timestamp p) (svgs p) in
      fun messages => map (fun m => if id m =? id p then entry else m) messages
  | All msgs => fun _ => msgs
  end.

(** One socket event on the UI event loop: the handler of the latest render
    runs, so its closure holds the current state. *)
Definition receive (messages : list ChatMessage) (message : Message) : list ChatMessage :=
  client_onMessage messages message messages.

(** The optimistic insertion of the form's [onSubmit]:
    [setMessages((messages) => [...messages, chatMessage])]. *)
Definition submit (chatMessage : ChatMessage) (messages : list ChatMessage)
  : list ChatMessage :=
  messages ++ [chatMessage].

(** The number of entries of a view that carry a given id. *)
Definition entries_with (i : string) (l : list ChatMessage) : nat :=
  List.length (filter (fun m => id m =? i) l).

(** ** Strings: the regular expressions and templates the code uses *)

Definition dquote : ascii := "034"%char.
Definition squote : ascii := "039"%char.
Definition DQ : string := String dquote EmptyString.

Definition is_quote (c : ascii) : bool := (c =? dquote)%char || (c =? squote)%char.

(** The class [\s] on code units below 256. *)
Definition is_space (c : ascii) : bool :=
  let n := nat_of_ascii c in
  (Nat.leb 9 n && Nat.leb n 13) || Nat.eqb n 32 || Nat.eqb n 160.

(** The remainder of [s] after the literal [p], when [s] starts with it. *)
Fixpoint after_prefix (p s : string) : option string :=
  match p with
  | EmptyString => Some s
  | String a p' =>
      match s with
      | EmptyString => None
      | String b s' => if (a =? b)%char then after_prefix p' s' else None
      end
  end.

(** The longest prefix of code units satisfying [p], and what follows it. *)
Fixpoint span (p : ascii -> bool) (s : string) : string * string :=
  match s with
  | EmptyString => (EmptyString, EmptyString)
  | String c s' =>
      if p c then let (a, b) := span p s' in (String c a, b)
      else (EmptyString, s)
  end.

(** A match, at the start of [s], of [name] followed by an equals sign, a
    quote, one or more code units that are no quote (the capture group) and a
    quote. *)
Definition attribute_here (name s : string) : option string :=
  match after_prefix (name ++ "=")%string s with
  | Some (String q rest) =>
      if is_quote q then
        match span (fun c => negb (is_quote c)) rest with
        | (String c v, String _ _) => Some (String c v)
        | _ => None
        end
      else None
  | _ => None
  end.

(** [s.match(/name=[quote]([^quote]+)[quote]/)]: group 1 of the leftmost match. *)
Fixpoint match_attribute (name s : string) : option string :=
  match attribute_here name s with
  | Some v => Some v
  | None =>
      match s with
      | EmptyString => None
      | String _ s' => match_attribute name s'
      end
  end.

(** [s.split(/\s+/)]. *)
Fixpoint split_spaces (s : string) : list string :=
  match s with
  | EmptyString => [EmptyString]
  | String c s' =>
      if is_space c then
        match s' with
        | String c' _ => if is_space c' then split_spaces s' else EmptyString :: split_spaces s'
        | EmptyString => EmptyString :: split_spaces s'
        end
      else
        match split_spaces s' with
        | t :: ts => String c t :: ts
        | [] => [String c EmptyString]
        end
  end.

(** A match, at the start of [s], of the literal [lit], any code units other
    than [>] (returned first), and [>]; what follows the match is returned
    second. *)
Definition tag_here (lit s : string) : option (string * string) :=
  match after_prefix lit s with
  | Some rest =>
      match span (fun c => negb (c =? ">")%char) rest with
      | (attrs, String _ after) => Some (attrs, after)
      | _ => None
      end
  | None => None
  end.

(** [s.replace(/lit[^>]*>/, ...)]: the leftmost match is replaced by [f] of
    the code units matched by the class; a string without a match is
    unchanged. *)
Fixpoint replace_tag (lit : string) (f : string -> string) (s : string) : string :=
  match tag_here lit s with
  | Some (attrs, after) => (f attrs ++ after)%string
  | None =>
      match s with
      | EmptyString => EmptyString
      | String c s' => String c (replace_tag lit f s')
      end
  end.

(** [s.includes(pat)]. *)
Fixpoint includes (pat s : string) : bool :=
  match after_prefix pat s with
  | Some _ => true
  | None =>
      match s with
      | EmptyString => false
      | String _ s' => includes pat s'
      end
  end.

(** [s.replace(pat, rep)] for a string pattern: the first occurrence. *)
Fixpoint replace_first (pat rep s : string) : string :=
  match after_prefix pat s with
  | Some after => (rep ++ after)%string
  | None =>
      match s with
      | EmptyString => EmptyString
      | String c s' => String c (replace_first pat rep s')
      end
  end.

(** [s.replace(/[^a-zA-Z0-9_-]/g, underscore)]. *)
Definition is_safe_char (c : ascii) : bool :=
  let n := nat_of_ascii c in
  (Nat.leb 97 n && Nat.leb n 122) || (Nat.leb 65 n && Nat.leb n 90)
  || (Nat.leb 48 n && Nat.leb n 57) || (c =? "_")%char || (c =? "-")%char.

Fixpoint sanitize (s : string) : string :=
  match s with
  | EmptyString => EmptyString
  | String c s' => String (if is_safe_char c then c else "_"%char) (sanitize s')
  end.

(** [s.endsWith(suffix)]. *)
Fixpoint endsWith (suffix s : string) : bool :=
  (s =? suffix) ||
  match s with
  | EmptyString => false
  | String _ s' => endsWith suffix s'
  end.

(** The segments of a storage key: the pieces between its slashes. *)
Fixpoint segments (s : string) : list string :=
  match s with
  | EmptyString => [EmptyString]
  | String c s' =>
      if (c =? "/")%char then EmptyString :: segments s'
      else match segments s' with
           | t :: ts => String c t :: ts
           | [] => [String c EmptyString]
           end
  end.

Fixpoint string_forallb (p : ascii -> bool) (s : string) : bool :=
  match s with
  | EmptyString => true
  | String c s' => p c && string_forallb p s'
  end.

(** ** Numbers: [Math.max] and [Math.min] *)

Local Open Scope float_scope.

(** One step of [Math.max]: NaN wins, and +0 is above -0. *)
Definition Math_max (a b : float) : float :=
  if is_nan a || is_nan b then nan
  else if a <? b then b
  else if b <? a then a
  else if is_zero a && get_sign a then b else a.

Definition Math_min (a b : float) : float :=
  if is_nan a || is_nan b then nan
  else if a <? b then a
  else if b <? a then b
  else if is_zero a && get_sign a then a else b.

(** [Math.max(...l)]. *)
Definition Math_max_of (l : list float) : float := fold_left Math_max l neg_infinity.

Local Close Scope float_scope.

(** ** Geometry: [normalizeSvg] and the ink encoder [generateSvgBlob] *)

(** A bounding box [x y width height]. *)
Record Bounds : Type := mkBounds {
  bx : float;
  by_ : float;
  bwidth : float;
  bheight : float
}.

(** The numbers written into a transform. *)
Record Centering : Type := mkCentering {
  scale : float;
  offsetX : float;
  offsetY : float
}.

Definition targetSize : float := 300%float.

(** A point of a stroke and a stroke of the canvas. *)
Record Point : Type := mkPoint { px : float; py : float }.

Record Stroke : Type := mkStroke {
  points : list Point;
  color : string;
  width : float
}.

Section Geometry.

Local Open Scope float_scope.

(** [Number(s)], [parseFloat(s)], the text of a number in a template
    literal, and [x.toFixed(digits)]. *)
Variable Number : string -> float.
Variable parseFloat : string -> float.
Variable Number_toString : float -> string.
Variable toFixed : nat -> float -> string.

(** The bounds [normalizeSvg] reads from a document: the [viewBox], else the
    [width] and [height] attributes, else 100 by 100 at the origin.  A
    component the [viewBox] lacks is [undefined], which every use below
    turns into NaN. *)
Definition resolveBounds (svgContent : string) : Bounds :=
  match match_attribute "viewBox" svgContent with
  | Some v =>
      let ns := map Number (split_spaces v) in
      mkBounds (nth 0 ns nan) (nth 1 ns nan) (nth 2 ns nan) (nth 3 ns nan)
  | None =>
      let width :=
        match match_attribute "width" svgContent with
        | Some w => parseFloat w
        | None => 100
        end in
      let height :=
        match match_attribute "height" svgContent with
        | Some h => parseFloat h
        | None => 100
        end in
      mkBounds 0 0 width height
  end.

(** The scale and the centring offsets of [normalizeSvg]. *)
Definition normalizeCentering (b : Bounds) : Centering :=
  let scale := targetSize / Math_max (bwidth b) (bheight b) in
  let scaledWidth := bwidth b * scale in
  let scaledHeight := bheight b * scale in
  let offsetX := (targetSize - scaledWidth) / 2 - bx b * scale in
  let offsetY := (targetSize - scaledHeight) / 2 - by_ b * scale in
  mkCentering scale offsetX offsetY.

(** The transform attribute of [normalizeSvg]. *)
Definition normalizeTransform (c : Centering) : string :=
  ("transform=" ++ DQ ++ "translate(" ++ Number_toString (offsetX c) ++ ","
   ++ Number_toString (offsetY c) ++ ") scale(" ++ Number_toString (scale c) ++ ")"
   ++ DQ)%string.

(** The rewriting of the document: the root tag, then the group. *)
Definition rewriteSvg (svgContent : string) (c : Centering) : string :=
  let root :=
    ("<svg viewBox=" ++ DQ ++ "0 0 " ++ Number_toString targetSize ++ " "
     ++ Number_toString targetSize ++ DQ ++ " xmlns=" ++ DQ
     ++ "http://www.w3.org/2000/svg" ++ DQ ++ ">")%string in
  let normalized := replace_tag "<svg" (fun _ => root) svgContent in
  if negb (includes "<g" normalized) then
    let normalized :=
      replace_tag "<svg"
        (fun attrs => ("<svg" ++ attrs ++ ">" ++ "<g " ++ normalizeTransform c ++ ">")%string)
        normalized in
    replace_first "</svg>" "</g></svg>" normalized
  else
    replace_tag "<g"
      (fun attrs => ("<g" ++ attrs ++ " " ++ normalizeTransform c ++ ">")%string)
      normalized.

Definition normalizeSvg (svgContent : string) : string :=
  rewriteSvg svgContent (normalizeCentering (resolveBounds svgContent)).

(** The bounding box of the strokes, padded: [minX], [minY],
    [contentWidth], [contentHeight] of [generateSvgBlob]. *)
Definition inkBounds (paths : list Stroke) : Bounds :=
  let pts := flat_map points paths in
  let minX := fold_left (fun m p => Math_min m (px p)) pts infinity in
  let minY := fold_left (fun m p => Math_min m (py p)) pts infinity in
  let maxX := fold_left (fun m p => Math_max m (px p)) pts neg_infinity in
  let maxY := fold_left (fun m p => Math_max m (py p)) pts neg_infinity in
  let maxStrokeWidth := Math_max_of (map width paths ++ [3]) in
  let padding := maxStrokeWidth + 4 in
  let minX := Math_max 0 (minX - padding) in
  let minY := Math_max 0 (minY - padding) in
  let maxX := maxX + padding in
  let maxY := maxY + padding in
  mkBounds minX minY (maxX - minX) (maxY - minY).

(** The scale and the centring offsets of [generateSvgBlob]. *)
Definition inkCentering (b : Bounds) : Centering :=
  let contentWidth := bwidth b in
  let contentHeight := bheight b in
  let scale := targetSize / Math_max contentWidth contentHeight in
  let scaledWidth := contentWidth * scale in
  let scaledHeight := contentHeight * scale in
  let offsetX := (targetSize - scaledWidth) / 2 in
  let offsetY := (targetSize - scaledHeight) / 2 in
  mkCentering scale offsetX offsetY.

(** The path data of one stroke: [M] for the first point, [L] for the rest,
    joined by spaces. *)
Fixpoint pathData (first : bool) (pts : list Point) : string :=
  match pts with
  | [] => EmptyString
  | p :: rest =>
      ((if first then "M" else "L") ++ toFixed 2 (px p) ++ "," ++ toFixed 2 (py p)
       ++ match rest with [] => EmptyString | _ => " " end
       ++ pathData false rest)%string
  end.

Definition pathElement (path : Stroke) : string :=
  if Nat.ltb (List.length (points path)) 2 then EmptyString
  else
    ("<path d=" ++ DQ ++ pathData true (points path) ++ DQ
     ++ " stroke=" ++ DQ ++ color path ++ DQ
     ++ " stroke-width=" ++ DQ ++ Number_toString (width path) ++ DQ
     ++ " fill=" ++ DQ ++ "none" ++ DQ
     ++ " stroke-linecap=" ++ DQ ++ "round" ++ DQ
     ++ " stroke-linejoin=" ++ DQ ++ "round" ++ DQ ++ "/>")%string.

Definition generateSvgBlob (paths : list Stroke) : string :=
  let b := inkBounds paths in
  let c := inkCentering b in
  ("<svg xmlns=" ++ DQ ++ "http://www.w3.org/2000/svg" ++ DQ
   ++ " width=" ++ DQ ++ Number_toString targetSize ++ DQ
   ++ " height=" ++ DQ ++ Number_toString targetSize ++ DQ
   ++ " viewBox=" ++ DQ ++ "0 0 " ++ Number_toString targetSize ++ " "
   ++ Number_toString targetSize ++ DQ ++ ">"
   ++ "<g transform=" ++ DQ
   ++ "translate(" ++ toFixed 2 (offsetX c) ++ "," ++ toFixed 2 (offsetY c) ++ ")"
   ++ " scale(" ++ toFixed 4 (scale c) ++ ")"
   ++ " translate(" ++ toFixed 2 (- bx b) ++ "," ++ toFixed 2 (- by_ b) ++ ")"
   ++ DQ ++ ">"
   ++ String.concat EmptyString (map pathElement paths)
   ++ "</g></svg>")%string.

End Geometry.

(** ** The upload boundary: [handleSvgUpload] *)

Record File : Type := mkFile {
  file_name : string;
  file_type : string;
  file_text : string
}.

(** The fields of the multipart body: [getAll] of the files, [get] of the
    three text fields ([None]: the field is absent). *)
Record FormData : Type := mkForm {
  form_svgs : list File;
  form_room : option string;
  form_user : option string;
  form_messageId : option string
}.

(** A request: its method and its body ([None]: [formData()] rejects). *)
Record Request : Type := mkRequest {
  method : string;
  formData : option FormData
}.

Inductive Body : Type :=
| BodyText (text : string)
| BodyError (error : string)
| BodySvgs (uploaded : list SvgAttachment).

Record Response : Type := mkResponse {
  status : nat;
  body : Body
}.

(** The environment of the worker: the objects of the bucket, newest first,
    and how many UUIDs were drawn. *)
Record Env : Type := mkEnv {
  SVG_BUCKET : list (string * string);
  uuids_drawn : nat
}.

(** [value || fallback] on a text field: absent and empty are falsy. *)
Definition or_default (field : option string) (fallback : string) : string :=
  match field with
  | Some EmptyString | None => fallback
  | Some s => s
  end.

(** The test of the loop of [handleSvgUpload]: a file is skipped when its
    type is not the SVG type and its name does not end in [.svg]. *)
Definition is_skipped (file : File) : bool :=
  negb (file_type file =? "image/svg+xml") && negb (endsWith ".svg" (file_name file)).

(** A valid vector file: one the loop does not skip. *)
Definition is_svg_file (file : File) : bool := negb (is_skipped file).

(** The key [svgs/room/user/messageId/name] of an object. *)
Definition storage_key (safeRoom safeUser safeMessageId name : string) : string :=
  ("svgs/" ++ safeRoom ++ "/" ++ safeUser ++ "/" ++ safeMessageId ++ "/" ++ name)%string.

Section Upload.

Variable Number : string -> float.
Variable parseFloat : string -> float.
Variable Number_toString : float -> string.

(** [crypto.randomUUID()]: the value of the n-th call. *)
Variable randomUUID : nat -> string.

(** Whether the bucket accepts a [put] under a key; a refused [put] rejects. *)
Variable put_accepted : string -> bool.

(** The loop over the files; [uploadedSvgs] grows at its end. *)
Fixpoint upload_loop (safeRoom safeUser safeMessageId : string) (files : list File)
    (uploadedSvgs : list SvgAttachment) (env : Env)
  : Completion (list SvgAttachment) * Env :=
  match files with
  | [] => (Normal uploadedSvgs, env)
  | file :: rest =>
      if is_skipped file then
        upload_loop safeRoom safeUser safeMessageId rest uploadedSvgs env
      else
        let fileId := randomUUID (uuids_drawn env) in
        let env := mkEnv (SVG_BUCKET env) (S (uuids_drawn env)) in
        let key := storage_key safeRoom safeUser safeMessageId (file_name file) in
        let svgContent := file_text file in
        let normalizedSvg := normalizeSvg Number parseFloat Number_toString svgContent in
        if put_accepted key then
          let env := mkEnv ((key, normalizedSvg) :: SVG_BUCKET env) (uuids_drawn env) in
          upload_loop safeRoom safeUser safeMessageId rest
            (uploadedSvgs ++ [mkSvg fileId ("/api/svg/" ++ key) (file_name file)]) env
        else (Throw "Error", env)
  end.

Definition handleSvgUpload (request : Request) (env : Env) : Response * Env :=
  if negb (method request =? "POST") then
    (mkResponse 405 (BodyText "Method not allowed"), env)
  else
    match formData request with
    | None => (mkResponse 500 (BodyError "Upload failed"), env)
    | Some form =>
        let files := form_svgs form in
        let room := or_default (form_room form) "default" in
        let user := or_default (form_user form) "anonymous" in
        let '(messageId, env) :=
          match form_messageId form with
          | Some EmptyString | None =>
              (randomUUID (uuids_drawn env), mkEnv (SVG_BUCKET env) (S (uuids_drawn env)))
          | Some s => (s, env)
          end in
        let safeRoom := sanitize room in
        let safeUser := sanitize user in
        let safeMessageId := sanitize messageId in
        if Nat.eqb (List.length files) 0 then
          (mkResponse 400 (BodyError "No files uploaded"), env)
        else
          match upload_loop safeRoom safeUser safeMessageId files [] env with
          | (Normal uploadedSvgs, env) => (mkResponse 200 (BodySvgs uploadedSvgs), env)
          | (Throw _, env) => (mkResponse 500 (BodyError "Upload failed"), env)
          end
    end.

(** The message id of a form before it is sanitised: the field, or a fresh
    UUID when the field is absent or empty. *)
Definition message_id_of (form : FormData) (env : Env) : string :=
  match form_messageId form with
  | Some EmptyString | None => randomUUID (uuids_drawn env)
  | Some s => s
  end.

End Upload.

(** ** Vocabulary of the properties *)

(** The ids of a list of messages, in its order. *)
Definition ids (l : list ChatMessage) : list string := map id l.

(** The order in which ids were first introduced: every id once, at the
    place of its first occurrence. *)
Fixpoint introduction_order (l : list string) : list string :=
  match l with
  | [] => []
  | i :: rest => i :: filter (fun j => negb (j =? i)) (introduction_order rest)
  end.

(** The last message of a sequence of appends that carries a given id. *)
Definition latest (i : string) (ms : list ChatMessage) : option ChatMessage :=
  find (fun m => id m =? i) (rev ms).

(** The list [saveMessage] leaves in memory. *)
Definition saved (message : ChatMessage) (msgs : list ChatMessage) : list ChatMessage :=
  match find (fun m => id m =? id message) msgs with
  | Some _ => map (fun m => if id m =? id message then message else m) msgs
  | None => msgs ++ [message]
  end.

(** The primary key of the table holds: no two rows share an id. *)
Definition primary_key (t : Table) : Prop := NoDup (map row_id t).

(** The row of the table with a given id. *)
Definition row_with (i : string) (t : Table) : option Row :=
  find (fun r => row_id r =? i) t.

(** The position of the first action of a trace that satisfies [p]. *)
Definition first_action (p : Action -> bool) (t : list Action) : option nat :=
  findIndex p t.

Definition is_broadcast (a : Action) : bool :=
  match a with Broadcast _ => true | _ => false end.

(** A write of the store: of the list in memory or of the table. *)
Definition is_store_write (a : Action) : bool :=
  match a with MemoryWrite _ | SqlUpsert _ => true | _ => false end.

(** In a trace, the store is written before the first broadcast. *)
Definition append_before_broadcast (t : list Action) : Prop :=
  exists i j, first_action is_store_write t = Some i
              /\ first_action is_broadcast t = Some j /\ i < j.

(** In a trace, a broadcast comes before every write of the store. *)
Definition broadcast_before_append (t : list Action) : Prop :=
  exists i j, first_action is_broadcast t = Some i
              /\ first_action is_store_write t = Some j /\ i < j.

(** The states of a room: it is created empty, the host runs its handlers
    one at a time, and a hibernating room loses what it holds in memory and
    keeps its table. *)
Section Lifecycle.

Variable JSON_parse : string -> option Message.
Variable JSON_stringify : Message -> string.

Inductive reachable : Chat -> Prop :=
| reach_created : reachable empty_room
| reach_onStart (s : Chat) :
    reachable s -> reachable (exec onStart s)
| reach_onConnect (s : Chat) (c : Connection) :
    reachable s -> reachable (exec (onConnect JSON_stringify c) s)
| reach_onMessage (s : Chat) (c : Connection) (raw : string) :
    reachable s -> reachable (exec (onMessage JSON_parse c raw) s)
| reach_saveMessage (s : Chat) (m : ChatMessage) :
    reachable s -> reachable (exec (saveMessage m) s)
| reach_hibernate (s : Chat) :
    reachable s -> reachable (mkServer [] (storage s) []).

End Lifecycle.

(** ** Worked inputs

    Stand-ins for the builtins on the few values the examples meet, and the
    messages, documents and strokes of the examples. *)

(** [Number] and [parseFloat] on an unsigned decimal integer (and on the
    empty string, which [Number] reads as 0); NaN elsewhere. *)
Definition sample_Number (s : string) : float :=
  match s with
  | EmptyString => 0%float
  | _ =>
      (fix digits (s : string) (acc : float) : float :=
         match s with
         | EmptyString => acc
         | String c s' =>
             let n := nat_of_ascii c in
             if Nat.leb 48 n && Nat.leb n 57
             then digits s' (acc * 10 + of_uint63 (Uint63.of_nat (n - 48)))%float
             else nan
         end) s 0%float
  end.

(** The text of the numbers the examples write. *)
Definition sample_toString (x : float) : string :=
  if is_nan x then "NaN"
  else if (x =? infinity)%float then "Infinity"
  else if (x =? 300)%float then "300"
  else if (x =? 112.5)%float then "112.5"
  else if (x =? 1.5)%float then "1.5"
  else if (x =? 0)%float then "0"
  else "?".

Definition sample_uuid (n : nat) : string :=
  match n with
  | 0 => "uuid-0"
  | 1 => "uuid-1"
  | 2 => "uuid-2"
  | _ => "uuid-n"
  end.

Definition hello : ChatMessage := mkChat "m1" "hi" "Alice" RoleUser (Some 5%Z) None.

Definition hello_by_bob : ChatMessage :=
  mkChat "m1" "edited" "Bob" RoleAssistant (Some 9%Z) None.

(** A document 50 wide and 200 high, without a group. *)
Definition tall_doc : string :=
  ("<svg viewBox=" ++ DQ ++ "0 0 50 200" ++ DQ ++ "><path d=" ++ DQ ++ "M0 0L50 200" ++ DQ
   ++ "/></svg>")%string.

Definition tall_doc_normalized : string :=
  ("<svg viewBox=" ++ DQ ++ "0 0 300 300" ++ DQ ++ " xmlns=" ++ DQ
   ++ "http://www.w3.org/2000/svg" ++ DQ ++ "><g transform=" ++ DQ
   ++ "translate(112.5,0) scale(1.5)" ++ DQ ++ "><path d=" ++ DQ ++ "M0 0L50 200" ++ DQ
   ++ "/></g></svg>")%string.

(** A document with empty bounds, with a group. *)
Definition empty_doc : string :=
  ("<svg viewBox=" ++ DQ ++ "0 0 0 0" ++ DQ ++ "><g id=" ++ DQ ++ "a" ++ DQ
   ++ "></g></svg>")%string.

Definition empty_doc_normalized : string :=
  ("<svg viewBox=" ++ DQ ++ "0 0 300 300" ++ DQ ++ " xmlns=" ++ DQ
   ++ "http://www.w3.org/2000/svg" ++ DQ ++ "><g id=" ++ DQ ++ "a" ++ DQ ++ " transform="
   ++ DQ ++ "translate(NaN,NaN) scale(Infinity)" ++ DQ ++ "></g></svg>")%string.

(** One stroke of width 3 from (57,57) to (143,143). *)
Definition diagonal : list Stroke :=
  [mkStroke [mkPoint 57 57; mkPoint 143 143] "#000000" 3].

(** Files of an upload, a request that carries them for room [lobby], user
    [Alice] and message [m1], and a worker that has stored nothing yet. *)
Definition svg_file (name : string) : File := mkFile name "image/svg+xml" tall_doc.

Definition png_file : File := mkFile "photo.png" "image/png" "PNG".

Definition upload_of (files : list File) : Request :=
  mkRequest "POST" (Some (mkForm files (Some "lobby") (Some "Alice") (Some "m1"))).

Definition fresh_env : Env := mkEnv [] 0.

(** A bucket that accepts every put. *)
Definition accept_all (key : string) : bool := true.

(** ** The rest of the worker and of the client *)

(** What a load can recover of a message: the columns the upsert writes,
    the timestamp as the statement binds it. *)
Definition durable_fields (m : ChatMessage)
  : string * string * option Z * option (list SvgAttachment) :=
  (id m, content m, or_null (timestamp m), svgs m).

Definition row_fields (r : Row)
  : string * string * option Z * option (list SvgAttachment) :=
  (row_id r, row_content r, or_null (row_timestamp r), row_svgs r).

(** The table is in step with the list in memory: the same ids in the same
    order, with the same content, timestamp and attachments. *)
Definition in_step (s : Chat) : Prop :=
  map durable_fields (messages s) = map row_fields (storage s).

(** *** The client [App]: its state and its handlers

    The handlers are modelled for a client whose name is entered.  The state
    holds the list of messages, the attachments waiting to be sent, and
    [currentMessageIdRef]. *)

Record AppState : Type := mkApp {
  view : list ChatMessage;
  pendingSvgs : list SvgAttachment;
  currentMessageId : option string
}.

(** [s.trim()], with the white space of [is_space]. *)
Fixpoint trimStart (s : string) : string :=
  match s with
  | EmptyString => EmptyString
  | String c s' => if is_space c then trimStart s' else s
  end.

Fixpoint trimEnd (s : string) : string :=
  match s with
  | EmptyString => EmptyString
  | String c s' =>
      match trimEnd s' with
      | EmptyString => if is_space c then EmptyString else String c EmptyString
      | t => String c t
      end
  end.

Definition trim (s : string) : string := trimEnd (trimStart s).

(** [handleSubmit] of [NameInputModal]: the name handed to [onSubmit], if
    any. *)
Definition NameInputModal_handleSubmit (inputName : string) : option string :=
  let trimmedName := trim inputName in
  match trimmedName with
  | EmptyString => None
  | _ => Some trimmedName
  end.

(** The [onSubmit] of the message form: the state it leaves and the message
    it sends, if it sends one.  [now] is [Date.now()] and [nanoid8] is
    [nanoid(8)]. *)
Definition onSubmit (name contentValue : string) (now : Z) (nanoid8 : string)
    (a : AppState) : AppState * option Message :=
  if (trim contentValue =? EmptyString) && Nat.eqb (List.length (pendingSvgs a)) 0
  then (a, None)
  else
    let chatMessage :=
      mkChat (or_default (currentMessageId a) nanoid8) contentValue name RoleUser
             (Some now)
             (if Nat.ltb 0 (List.length (pendingSvgs a)) then Some (pendingSvgs a) else None) in
    (mkApp (view a ++ [chatMessage]) [] None, Some (Add chatMessage)).

(** The test [handleFileSelect] puts a file to before it appends it. *)
Definition client_accepts (file : File) : bool :=
  (file_type file =? "image/svg+xml") || endsWith ".svg" (file_name file).

(** The request of an upload: a POST to the upload path with the three text
    fields and the files. *)
Definition upload_request (room : option string) (name : string) (files : list File)
    (messageId : string) : Request :=
  mkRequest "POST"
    (Some (mkForm files (Some (or_default room "default")) (Some name) (Some messageId))).

(** [handleFileSelect] up to its [fetch]: nothing happens without files;
    otherwise the message id is fixed and the request leaves. *)
Definition handleFileSelect (room : option string) (name : string) (files : list File)
    (nanoid8 : string) (a : AppState) : option (AppState * Request) :=
  match files with
  | [] => None
  | _ =>
      let messageId := or_default (currentMessageId a) nanoid8 in
      Some (mkApp (view a) (pendingSvgs a) (Some messageId),
            upload_request room name (filter client_accepts files) messageId)
  end.

(** [handleHandwritingSave] up to its [fetch]; [stamp] is the text of
    [Date.now()]. *)
Definition handleHandwritingSave (room : option string) (name : string) (svgBlob : string)
    (stamp : string) (nanoid8 : string) (a : AppState) : AppState * Request :=
  let filename := ("handwriting-" ++ stamp ++ ".svg")%string in
  let messageId := or_default (currentMessageId a) nanoid8 in
  (mkApp (view a) (pendingSvgs a) (Some messageId),
   upload_request room name [mkFile filename "image/svg+xml" svgBlob] messageId).

(** [response.ok]. *)
Definition response_ok (response : Response) : bool :=
  Nat.leb 200 (status response) && Nat.leb (status response) 299.

(** What both upload handlers do with the response. *)
Definition upload_settled (response : Response) (a : AppState) : AppState :=
  if response_ok response then
    match body response with
    | BodySvgs data_svgs => mkApp (view a) (pendingSvgs a ++ data_svgs) (currentMessageId a)
    | _ => a
    end
  else a.

(** [handleSaveAndClose] and [handleSaveAndContinue] of the canvas: the blob
    handed to [onSave] and the [keepOpen] flag, unless there is no stroke. *)
Section Canvas.

Variable Number_toString : float -> string.
Variable toFixed : nat -> float -> string.

Definition handleSaveAndClose (paths : list Stroke) : option (string * bool) :=
  match paths with
  | [] => None
  | _ => Some (generateSvgBlob Number_toString toFixed paths, false)
  end.

Definition handleSaveAndContinue (paths : list Stroke) : option (string * bool) :=
  match paths with
  | [] => None
  | _ => Some (generateSvgBlob Number_toString toFixed paths, true)
  end.

End Canvas.

(** *** The worker: retrieval and routing *)

Record SvgResponse : Type := mkSvgResponse {
  svg_status : nat;
  svg_body : string;
  svg_headers : list (string * string)
}.

(** [bucket.get(key)]: the newest object stored under the key. *)
Fixpoint bucket_get (key : string) (bucket : list (string * string)) : option string :=
  match bucket with
  | [] => None
  | (k, v) :: rest => if k =? key then Some v else bucket_get key rest
  end.

Definition handleSvgGet (key : string) (env : Env) : SvgResponse :=
  match bucket_get key (SVG_BUCKET env) with
  | None => mkSvgResponse 404 "Not found" []
  | Some object_body =>
      mkSvgResponse 200 object_body
        [("Content-Type", "image/svg+xml");
         ("Cache-Control", "public, max-age=31536000")]
  end.



Section Router.

(** [decodeURIComponent] ([None]: it throws a [URIError]). *)
Variable decodeURIComponent : string -> option string.


End Router.

(** *** Further worked inputs *)

(** A stand-in for [crypto.randomUUID] that never repeats: the n-th value is
    n + 1 letters long. *)
Fixpoint tally_uuid (n : nat) : string :=
  String "u" (match n with
              | 0 => EmptyString
              | S k => tally_uuid k
              end).


(** Whether a text starts, or ends, with white space. *)
Definition starts_with_space (s : string) : bool :=
  match s with
  | EmptyString => false
  | String c _ => is_space c
  end.

Fixpoint ends_with_space (s : string) : bool :=
  match s with
  | EmptyString => false
  | String c EmptyString => is_space c
  | String _ s' => ends_with_space s'
  end.

(** *** Vocabulary for the text of documents *)

(** [pat] and [s] differ at a place both reach: [pat] cannot start [s],
    whatever follows [s]. *)
Fixpoint clash (pat s : string) : bool :=
  match pat, s with
  | String a p, String b s' => negb (a =? b)%char || clash p s'
  | _, _ => false
  end.

(** No occurrence of [pat] starts inside [x], whatever follows [x]. *)
Fixpoint never_starts (pat x : string) : bool :=
  match x with
  | EmptyString => true
  | String _ x' => clash pat x && never_starts pat x'
  end.

(** No proper, non-empty end of [pat] starts [z]: an occurrence of [pat]
    cannot begin before [z] and run into it. *)
Fixpoint suffixes_miss (pat z : string) : bool :=
  match pat with
  | EmptyString => true
  | String _ p =>
      match p with
      | EmptyString => true
      | _ => (match after_prefix p z with Some _ => false | None => true end)
             && suffixes_miss p z
      end
  end.

(** The root tag [normalizeSvg] writes, with 300 written as [300]. *)
Definition canonical_root : string :=
  ("<svg viewBox=" ++ DQ ++ "0 0 300 300" ++ DQ ++ " xmlns=" ++ DQ
   ++ "http://www.w3.org/2000/svg" ++ DQ ++ ">")%string.

(** The root tag [generateSvgBlob] writes, with 300 written as [300]. *)
Definition ink_root : string :=
  ("<svg xmlns=" ++ DQ ++ "http://www.w3.org/2000/svg" ++ DQ
   ++ " width=" ++ DQ ++ "300" ++ DQ ++ " height=" ++ DQ ++ "300" ++ DQ
   ++ " viewBox=" ++ DQ ++ "0 0 300 300" ++ DQ ++ ">")%string.

(** A code unit other than [>], other than [<]. *)
Definition not_gt (c : ascii) : bool := negb (c =? ">")%char.
Definition not_lt (c : ascii) : bool := negb (c =? "<")%char.

(** The text [toFixed] gives the numbers of the drawing [diagonal]. *)
Definition sample_toFixed (digits : nat) (x : float) : string :=
  if (x =? 0)%float then (if Nat.eqb digits 2 then "0.00" else "0.0000")
  else if (x =? 3)%float then "3.0000"
  else if (x =? -50)%float then "-50.00"
  else if (x =? 57)%float then "57.00"
  else if (x =? 143)%float then "143.00"
  else "?".

(** The text of the numbers the drawing [diagonal] has written without
    [toFixed]. *)
Definition ink_toString (x : float) : string :=
  if (x =? 300)%float then "300"
  else if (x =? 3)%float then "3"
  else if (x =? 1)%float then "1"
  else if (x =? 0)%float then "0"
  else "?".

(** The drawing [diagonal] as the bucket holds it after an upload. *)
Definition diagonal_stored : string :=
  (canonical_root ++ "<g transform=" ++ DQ
   ++ "translate(0.00,0.00) scale(3.0000) translate(-50.00,-50.00)" ++ DQ
   ++ " transform=" ++ DQ ++ "translate(0,0) scale(1)" ++ DQ ++ ">"
   ++ "<path d=" ++ DQ ++ "M57.00,57.00 L143.00,143.00" ++ DQ
   ++ " stroke=" ++ DQ ++ "#000000" ++ DQ ++ " stroke-width=" ++ DQ ++ "3" ++ DQ
   ++ " fill=" ++ DQ ++ "none" ++ DQ ++ " stroke-linecap=" ++ DQ ++ "round" ++ DQ
   ++ " stroke-linejoin=" ++ DQ ++ "round" ++ DQ ++ "/></g></svg>")%string.

(** A document whose [viewBox] is written with commas. *)
Definition comma_doc : string :=
  ("<svg viewBox=" ++ DQ ++ "0,0,50,200" ++ DQ ++ "></svg>")%string.

(** * Properties *)

(** ** The room message store *)

Lemma saveMessage_run (message : ChatMessage) (s : Chat) :
  saveMessage message s =
  (Normal tt,
   mkServer (saved message (messages s))
            (sql_upsert (row_of_message message) (storage s))
            (trace s ++ [MemoryWrite (saved message (messages s));
                         SqlUpsert (row_of_message message)])).
Proof.
  unfold saveMessage, saved, bind, this_messages.
  destruct (find _ (messages s));
    unfold set_messages, sql_exec_upsert, does; cbn;
    rewrite <- app_assoc; reflexivity.
Qed.

Lemma exec_saveMessage (message : ChatMessage) (s : Chat) :
  exec (saveMessage message) s =
  mkServer (saved message (messages s))
           (sql_upsert (row_of_message message) (storage s))
           (trace s ++ [MemoryWrite (saved message (messages s));
                        SqlUpsert (row_of_message message)]).
Proof. unfold exec. rewrite saveMessage_run. reflexivity. Qed.

Lemma appends_normal (ms : list ChatMessage) (s : Chat) :
  fst (appends ms s) = Normal tt.
Proof.
  revert s; induction ms as [|a ms IH]; intro s; [reflexivity|].
  cbn [appends]. unfold bind. rewrite saveMessage_run. apply IH.
Qed.

Lemma appends_snoc (ms : list ChatMessage) (m : ChatMessage) (s : Chat) :
  exec (appends (ms ++ [m])) s = exec (saveMessage m) (exec (appends ms) s).
Proof.
  revert s; induction ms as [|a ms IH]; intro s.
  - cbn. unfold exec, bind. rewrite saveMessage_run. reflexivity.
  - cbn [appends app]. unfold exec, bind in *. rewrite saveMessage_run. apply IH.
Qed.

Lemma find_id_none (i : string) (l : list ChatMessage) :
  find (fun m => id m =? i) l = None <-> ~ In i (ids l).
Proof.
  induction l as [|a l IH]; cbn.
  - split; [intros _ []|reflexivity].
  - destruct (String.eqb_spec (id a) i) as [E|E].
    + split; [discriminate|intro H; exfalso; apply H; left; exact E].
    + rewrite IH. split.
      * intros H [F|F]; [exact (E F)|exact (H F)].
      * intros H F. apply H. right. exact F.
Qed.

Lemma ids_replace (message : ChatMessage) (l : list ChatMessage) :
  ids (map (fun m => if id m =? id message then message else m) l) = ids l.
Proof.
  induction l as [|a l IH]; cbn; [reflexivity|].
  unfold ids in IH. rewrite IH.
  destruct (String.eqb_spec (id a) (id message)) as [E|E]; [rewrite E|]; reflexivity.
Qed.

Lemma existsb_id (i : string) (l : list string) :
  existsb (String.eqb i) l = true <-> In i l.
Proof.
  rewrite existsb_exists. split.
  - intros [j [Hj E]]. apply String.eqb_eq in E. subst j. exact Hj.
  - intro H. exists i. split; [exact H|apply String.eqb_refl].
Qed.

(** The ids after a save: unchanged when the id is known, one more at the
    end when it is new. *)
Lemma ids_saved (message : ChatMessage) (l : list ChatMessage) :
  ids (saved message l) =
  if existsb (String.eqb (id message)) (ids l) then ids l else ids l ++ [id message].
Proof.
  unfold saved.
  destruct (find (fun m => id m =? id message) l) as [x|] eqn:F.
  - rewrite ids_replace.
    assert (In (id message) (ids l)) as H.
    { apply find_some in F. destruct F as [Hin E]. apply String.eqb_eq in E.
      rewrite <- E. unfold ids. apply in_map. exact Hin. }
    apply existsb_id in H. rewrite H. reflexivity.
  - apply find_id_none in F.
    destruct (existsb (String.eqb (id message)) (ids l)) eqn:E.
    + apply existsb_id in E. contradiction.
    + unfold ids. rewrite map_app. reflexivity.
Qed.

Lemma NoDup_snoc (i : string) (l : list string) :
  NoDup l -> ~ In i l -> NoDup (l ++ [i]).
Proof.
  intros H N. induction H as [|a l Ha Hl IH]; cbn.
  - constructor; [intros []|constructor].
  - constructor.
    + intro C. apply in_app_or in C. destruct C as [C|[C|[]]].
      * exact (Ha C).
      * apply N. left. symmetry. exact C.
    + apply IH. intro C. apply N. right. exact C.
Qed.

Lemma saved_NoDup (message : ChatMessage) (l : list ChatMessage) :
  NoDup (ids l) -> NoDup (ids (saved message l)).
Proof.
  intro H. rewrite ids_saved.
  destruct (existsb (String.eqb (id message)) (ids l)) eqn:E; [exact H|].
  apply NoDup_snoc; [exact H|]. intro C. apply existsb_id in C. congruence.
Qed.

Lemma In_saved (message x : ChatMessage) (l : list ChatMessage) :
  In x (saved message l) -> x = message \/ (In x l /\ id x <> id message).
Proof.
  unfold saved. destruct (find (fun m => id m =? id message) l) as [y|] eqn:F.
  - intro H. apply in_map_iff in H. destruct H as [z [E Hz]].
    destruct (String.eqb_spec (id z) (id message)) as [Ez|Ez].
    + left. symmetry. exact E.
    + right. subst x. split; assumption.
  - intro H. apply in_app_or in H. destruct H as [H|[H|[]]].
    + right. split; [exact H|]. intro Ex. apply find_id_none in F.
      apply F. rewrite <- Ex. unfold ids. apply in_map. exact H.
    + left. symmetry. exact H.
Qed.

Lemma introduction_order_In (i : string) (l : list string) :
  In i (introduction_order l) <-> In i l.
Proof.
  induction l as [|a l IH]; cbn; [reflexivity|].
  rewrite filter_In, IH. split.
  - intros [H|[H _]]; [left|right]; exact H.
  - intros [H|H]; [left; exact H|].
    destruct (String.eqb_spec i a) as [E|E]; [left; symmetry; exact E|].
    right. split; [exact H|reflexivity].
Qed.

Lemma existsb_introduction_order (i : string) (l : list string) :
  existsb (String.eqb i) (introduction_order l) = existsb (String.eqb i) l.
Proof.
  apply eq_true_iff_eq. rewrite !existsb_id. apply introduction_order_In.
Qed.

Lemma introduction_order_snoc (i : string) (l : list string) :
  introduction_order (l ++ [i]) =
  if existsb (String.eqb i) l then introduction_order l else introduction_order l ++ [i].
Proof.
  induction l as [|a l IH]; cbn [app introduction_order existsb]; [reflexivity|].
  rewrite IH. destruct (String.eqb_spec i a) as [E|E]; cbn [orb].
  - subst a. destruct (existsb (String.eqb i) l); [reflexivity|].
    rewrite filter_app. cbn. rewrite String.eqb_refl. cbn. rewrite app_nil_r. reflexivity.
  - destruct (existsb (String.eqb i) l); [reflexivity|].
    rewrite filter_app. cbn. apply String.eqb_neq in E. rewrite E. reflexivity.
Qed.

Lemma latest_snoc (i : string) (ms : list ChatMessage) (m : ChatMessage) :
  latest i (ms ++ [m]) = if id m =? i then Some m else latest i ms.
Proof. unfold latest. rewrite rev_app_distr. reflexivity. Qed.

Lemma entries_with_NoDup (i : string) (l : list ChatMessage) :
  NoDup (ids l) -> In i (ids l) -> entries_with i l = 1.
Proof.
  unfold entries_with. induction l as [|a l IH]; cbn; [intros _ []|].
  intros H Hin. inversion H as [|? ? Ha Hl]; subst.
  destruct (String.eqb_spec (id a) i) as [E|E].
  - cbn. f_equal. subst i.
    clear IH H Hin Hl. induction l as [|b l IH]; cbn; [reflexivity|].
    destruct (String.eqb_spec (id b) (id a)) as [E|E].
    + exfalso. apply Ha. left. exact E.
    + apply IH. intro C. apply Ha. right. exact C.
  - destruct Hin as [C|Hin]; [contradiction|]. apply IH; assumption.
Qed.

(** What a sequence of appends leaves in memory, from an empty room. *)
Lemma appends_memory (ms : list ChatMessage) :
  let l := messages (exec (appends ms) empty_room) in
  ids l = introduction_order (ids ms)
  /\ NoDup (ids l)
  /\ (forall m, In m l -> latest (id m) ms = Some m).
Proof.
  induction ms as [|m ms IH] using rev_ind.
  - cbn. split; [reflexivity|]. split; [constructor|intros m []].
  - cbn zeta in *. rewrite appends_snoc, exec_saveMessage.
    cbn [messages]. destruct IH as [O [N L]].
    split; [|split].
    + rewrite ids_saved. unfold ids at 4. rewrite map_app. cbn [map].
      rewrite introduction_order_snoc. fold (ids ms). rewrite O.
      rewrite existsb_introduction_order.
      destruct (existsb (String.eqb (id m)) (ids ms)); reflexivity.
    + apply saved_NoDup. exact N.
    + intros x Hx. rewrite latest_snoc. apply In_saved in Hx.
      destruct Hx as [Hx|[Hx Ne]].
      * subst x. rewrite String.eqb_refl. reflexivity.
      * destruct (String.eqb_spec (id m) (id x)) as [E|E]; [congruence|].
        apply L. exact Hx.
Qed.

Lemma ids_message_of_row (t : Table) : ids (map message_of_row t) = map row_id t.
Proof. unfold ids. rewrite map_map. reflexivity. Qed.

Lemma exec_onStart (s : Chat) :
  exec onStart s =
  mkServer (map message_of_row (storage s)) (storage s)
           (trace s ++ [SqlCreateTable; SqlSelectAll;
                        MemoryWrite (map message_of_row (storage s))]).
Proof.
  unfold exec, onStart, bind, sql_create_table, sql_select_all, set_messages, does.
  cbn. rewrite <- !app_assoc. reflexivity.
Qed.

Lemma row_ids_upsert (r : Row) (t : Table) :
  map row_id (sql_upsert r t) =
  if existsb (String.eqb (row_id r)) (map row_id t) then map row_id t
  else map row_id t ++ [row_id r].
Proof.
  induction t as [|a t IH]; cbn; [reflexivity|].
  rewrite (String.eqb_sym (row_id r) (row_id a)).
  destruct (row_id a =? row_id r); cbn; [reflexivity|].
  rewrite IH. destruct (existsb _ _); reflexivity.
Qed.

Lemma upsert_primary_key (r : Row) (t : Table) :
  primary_key t -> primary_key (sql_upsert r t).
Proof.
  unfold primary_key. intro H. rewrite row_ids_upsert.
  destruct (existsb (String.eqb (row_id r)) (map row_id t)) eqn:E; [exact H|].
  apply NoDup_snoc; [exact H|]. intro C. apply existsb_id in C. congruence.
Qed.

Section RoomFacts.

Variable JSON_parse : string -> option Message.
Variable JSON_stringify : Message -> string.

Lemma exec_onConnect (c : Connection) (s : Chat) :
  exec (onConnect JSON_stringify c) s =
  mkServer (messages s) (storage s)
           (trace s ++ [Send c (JSON_stringify (All (messages s)))]).
Proof. reflexivity. Qed.

Lemma eta_message (p : ChatMessage) :
  mkChat (id p) (content p) (user p) (role p) (timestamp p) (svgs p) = p.
Proof. destruct p; reflexivity. Qed.

(** [onMessage] on a message that parses as an add or an update. *)
Lemma onMessage_upsert (c : Connection) (raw : string) (p : ChatMessage) (s : Chat) :
  JSON_parse raw = Some (Add p) \/ JSON_parse raw = Some (Update p) ->
  onMessage JSON_parse c raw s =
  (Normal tt,
   mkServer (saved p (messages s))
            (sql_upsert (row_of_message p) (storage s))
            (trace s ++ [Broadcast raw; MemoryWrite (saved p (messages s));
                         SqlUpsert (row_of_message p)])).
Proof.
  intro H. unfold onMessage, bind, broadcast.
  assert (saveMessage (mkChat (id p) (content p) (user p) (role p) (timestamp p) (svgs p))
          = saveMessage p) as E by (rewrite eta_message; reflexivity).
  destruct H as [H|H]; rewrite H, E, saveMessage_run; unfold does; cbn;
    rewrite <- app_assoc; reflexivity.
Qed.

Lemma onMessage_store (c : Connection) (raw : string) (s : Chat) :
  (messages (exec (onMessage JSON_parse c raw) s) = messages s
   /\ storage (exec (onMessage JSON_parse c raw) s) = storage s)
  \/ exists p,
       messages (exec (onMessage JSON_parse c raw) s) = saved p (messages s)
       /\ storage (exec (onMessage JSON_parse c raw) s)
          = sql_upsert (row_of_message p) (storage s).
Proof.
  destruct (JSON_parse raw) as [[p|p|l]|] eqn:P.
  - right. exists p. unfold exec. rewrite (onMessage_upsert c raw p s (or_introl P)).
    split; reflexivity.
  - right. exists p. unfold exec. rewrite (onMessage_upsert c raw p s (or_intror P)).
    split; reflexivity.
  - left. unfold exec, onMessage, bind, broadcast. rewrite P. split; reflexivity.
  - left. unfold exec, onMessage, bind, broadcast. rewrite P. split; reflexivity.
Qed.

Lemma reachable_invariant (s : Chat) :
  reachable JSON_parse JSON_stringify s ->
  NoDup (ids (messages s)) /\ primary_key (storage s).
Proof.
  induction 1 as [|s R [N K]|s c R [N K]|s c raw R [N K]|s m R [N K]|s R [N K]].
  - split; constructor.
  - rewrite exec_onStart. cbn. split; [|exact K].
    rewrite ids_message_of_row. exact K.
  - rewrite exec_onConnect. cbn. split; assumption.
  - destruct (onMessage_store c raw s) as [[Em Es]|[p [Em Es]]]; rewrite Em, Es.
    + split; assumption.
    + split; [apply saved_NoDup; exact N|apply upsert_primary_key; exact K].
  - rewrite exec_saveMessage. cbn. split; [apply saved_NoDup; exact N|apply upsert_primary_key; exact K].
  - cbn. split; [constructor|exact K].
Qed.

End RoomFacts.

(** C1.  For every sequence of [saveMessage] calls applied to an initially
    empty room store, every call returns, the list in memory holds the ids in
    the order of their first introduction, its entries are, in that order,
    the latest message appended under each id, no id occurs twice, and the
    snapshot a client is then sent carries that list: exactly one message
    per id. *)
Theorem append_sequence_first_position_latest_content
    (JSON_stringify : Message -> string) (c : Connection) (ms : list ChatMessage) :
  let s := exec (appends ms) empty_room in
  fst (appends ms empty_room) = Normal tt
  /\ ids (messages s) = introduction_order (ids ms)
  /\ map Some (messages s) = map (fun i => latest i ms) (introduction_order (ids ms))
  /\ NoDup (ids (messages s))
  /\ exists l,
       trace (exec (onConnect JSON_stringify c) s)
       = trace s ++ [Send c (JSON_stringify (All l))]
       /\ l = messages s
       /\ forall i, In i (ids ms) ->
            entries_with i l = 1
            /\ exists m, In m l /\ id m = i /\ latest i ms = Some m.
Proof.
  cbn zeta. destruct (appends_memory ms) as [O [N L]]. cbn zeta in O, N, L.
  split; [apply appends_normal|]. split; [exact O|]. split; [|split; [exact N|]].
  - rewrite <- O. unfold ids. rewrite map_map. apply map_ext_in.
    intros m Hm. symmetry. apply L. exact Hm.
  - exists (messages (exec (appends ms) empty_room)).
    split; [reflexivity|]. split; [reflexivity|]. intros i Hi.
    assert (In i (ids (messages (exec (appends ms) empty_room)))) as Hin.
    { rewrite O. apply introduction_order_In. exact Hi. }
    split; [apply entries_with_NoDup; assumption|].
    unfold ids in Hin. apply in_map_iff in Hin. destruct Hin as [m [E Hm]].
    exists m. split; [exact Hm|]. split; [exact E|]. rewrite <- E. apply L. exact Hm.
Qed.

(** The scenario of the store: [a] appended with body [hi], then with body
    [hi there]. *)
Example append_twice_scenario :
  messages (exec (appends [mkChat "a" "hi" "Alice" RoleUser None None;
                           mkChat "a" "hi there" "Alice" RoleUser None None])
                 empty_room)
  = [mkChat "a" "hi there" "Alice" RoleUser None None].
Proof. reflexivity. Qed.

(** ** The order of broadcast and append in [onMessage] *)

(** C2, as the code has it.  For every incoming message that parses as an
    add or an update, [onMessage] returns and does three things in this
    order within the one handler run: it broadcasts the raw message to the
    room, it writes the list in memory, it upserts the row.  The broadcast
    comes first; the store is written after it. *)
Theorem onMessage_broadcasts_then_appends
    (JSON_parse : string -> option Message)
    (c : Connection) (raw : string) (p : ChatMessage) (s : Chat) :
  JSON_parse raw = Some (Add p) \/ JSON_parse raw = Some (Update p) ->
  let s' := exec (onMessage JSON_parse c raw) s in
  fst (onMessage JSON_parse c raw s) = Normal tt
  /\ messages s' = saved p (messages s)
  /\ storage s' = sql_upsert (row_of_message p) (storage s)
  /\ trace s' = trace s ++ [Broadcast raw; MemoryWrite (saved p (messages s));
                            SqlUpsert (row_of_message p)]
  /\ broadcast_before_append (skipn (List.length (trace s)) (trace s'))
  /\ ~ append_before_broadcast (skipn (List.length (trace s)) (trace s')).
Proof.
  intro H. cbn zeta. unfold exec. rewrite (onMessage_upsert JSON_parse c raw p s H).
  cbn [fst snd messages storage trace].
  repeat (split; [reflexivity|]).
  rewrite skipn_app, skipn_all, Nat.sub_diag. cbn [app skipn].
  split.
  - exists 0, 1. repeat split. lia.
  - intros [i [j [Hi [Hj Lt]]]]. cbn in Hi, Hj.
    injection Hi as <-. injection Hj as <-. lia.
Qed.

Lemma onMessage_broadcasts_then_appends_witness :
  let s' := exec (onMessage (fun _ => Some (Add hello)) "c1" "raw") empty_room in
  messages s' = [hello]
  /\ trace s' = [Broadcast "raw"; MemoryWrite [hello]; SqlUpsert (row_of_message hello)]
  /\ broadcast_before_append (trace s').
Proof.
  destruct (onMessage_broadcasts_then_appends (fun _ => Some (Add hello)) "c1" "raw"
              hello empty_room (or_introl eq_refl)) as [_ [M [_ [T [B _]]]]].
  split; [exact M|]. split; [exact T|exact B].
Defined.

(** C2 fails as stated: on an add, the broadcast is the first thing the
    handler does, and the store is still empty when it happens. *)
Lemma onMessage_append_not_before_broadcast :
  let s' := exec (onMessage (fun _ => Some (Add hello)) "c1" "raw") empty_room in
  trace s' = [Broadcast "raw"; MemoryWrite [hello]; SqlUpsert (row_of_message hello)]
  /\ ~ append_before_broadcast (trace s').
Proof.
  cbn zeta. split; [reflexivity|].
  intros [i [j [Hi [Hj Lt]]]]. cbn in Hi, Hj.
  injection Hi as <-. injection Hj as <-. lia.
Qed.

(** ** The table against the list in memory *)

Lemma row_with_upsert_same (r old : Row) (t : Table) :
  row_with (row_id r) t = Some old ->
  row_with (row_id r) (sql_upsert r t)
  = Some (mkRow (row_id old) (row_user old) (row_role old)
                (row_content r) (row_timestamp r) (row_svgs r)).
Proof.
  unfold row_with. induction t as [|a t IH]; cbn; [discriminate|].
  destruct (row_id a =? row_id r) eqn:E; cbn.
  - intro H. injection H as <-. rewrite E. reflexivity.
  - rewrite E. exact IH.
Qed.

Lemma row_with_upsert_other (i : string) (r : Row) (t : Table) :
  i <> row_id r -> row_with i (sql_upsert r t) = row_with i t.
Proof.
  unfold row_with. intro N. induction t as [|a t IH]; cbn.
  - destruct (String.eqb_spec (row_id r) i) as [E|E]; [congruence|reflexivity].
  - destruct (String.eqb_spec (row_id a) (row_id r)) as [E|E]; cbn.
    + destruct (String.eqb_spec (row_id a) i) as [E'|E']; [congruence|reflexivity].
    + rewrite IH. reflexivity.
Qed.

Lemma row_with_unique (i : string) (r x : Row) (t : Table) :
  primary_key t -> row_with i t = Some r -> In x t -> row_id x = i -> x = r.
Proof.
  unfold primary_key, row_with. induction t as [|a t IH]; cbn; [intros _ _ []|].
  intros K F Hin E. inversion K as [|? ? Ha Kt]; subst.
  destruct (String.eqb_spec (row_id a) (row_id x)) as [Ea|Ea].
  - injection F as <-. destruct Hin as [Hin|Hin]; [symmetry; exact Hin|].
    exfalso. apply Ha. rewrite Ea. apply in_map. exact Hin.
  - destruct Hin as [Hin|Hin]; [subst a; congruence|].
    apply IH; [exact Kt|exact F|exact Hin|reflexivity].
Qed.

Lemma row_with_In (i : string) (r : Row) (t : Table) :
  row_with i t = Some r -> In r t /\ row_id r = i.
Proof.
  unfold row_with. intro F. apply find_some in F. destruct F as [Hin E].
  apply String.eqb_eq in E. split; assumption.
Qed.

(** C9.  When [saveMessage] is called with an id that already has a row and
    an entry in memory, the upsert changes the content, timestamp and svgs
    columns of that row and keeps its user and role columns, and leaves every
    other row alone, whereas every entry of that id in memory becomes the new
    record as a whole.  A load that follows therefore rebuilds the message
    with the author and role of the old row: when the new author (or role)
    differs from the stored one, memory and the reloaded state disagree on
    it. *)
Theorem upsert_keeps_user_and_role (s : Chat) (old : Row) (message : ChatMessage) :
  primary_key (storage s) ->
  row_with (id message) (storage s) = Some old ->
  In (id message) (ids (messages s)) ->
  let s' := exec (saveMessage message) s in
  let reloaded := messages (exec onStart s') in
  let kept := mkRow (row_id old) (row_user old) (row_role old) (content message)
                    (or_null (timestamp message)) (svgs message) in
  row_with (id message) (storage s') = Some kept
  /\ (forall i, i <> id message -> row_with i (storage s') = row_with i (storage s))
  /\ (exists m, In m (messages s') /\ id m = id message)
  /\ (forall m, In m (messages s') -> id m = id message -> m = message)
  /\ (exists m, In m reloaded /\ id m = id message)
  /\ (forall m, In m reloaded -> id m = id message -> m = message_of_row kept)
  /\ (forall a b, In a (messages s') -> In b reloaded ->
        id a = id message -> id b = id message ->
        user a = user message /\ role a = role message
        /\ user b = row_user old /\ role b = row_role old
        /\ (user message <> row_user old -> user a <> user b)
        /\ (role message <> row_role old -> role a <> role b)).
Proof.
  intros K F Hin. cbn zeta. rewrite exec_onStart, exec_saveMessage.
  cbn [messages storage].
  assert (row_svgs (row_of_message message) = svgs message) as Esv.
  { cbn. destruct (svgs message); reflexivity. }
  assert (row_with (id message) (sql_upsert (row_of_message message) (storage s))
          = Some (mkRow (row_id old) (row_user old) (row_role old) (content message)
                        (or_null (timestamp message)) (svgs message))) as F'.
  { rewrite <- Esv.
    exact (row_with_upsert_same (row_of_message message) old (storage s) F). }
  assert (forall m, In m (saved message (messages s)) -> id m = id message -> m = message)
    as Mem.
  { intros m Hm E. apply In_saved in Hm. destruct Hm as [Hm|[_ Ne]]; [exact Hm|contradiction]. }
  assert (forall m, In m (map message_of_row (sql_upsert (row_of_message message) (storage s))) ->
            id m = id message ->
            m = message_of_row (mkRow (row_id old) (row_user old) (row_role old) (content message)
                                      (or_null (timestamp message)) (svgs message))) as Rel.
  { intros m Hm E. apply in_map_iff in Hm. destruct Hm as [x [Ex Hx]]. subst m.
    f_equal. apply (row_with_unique (id message) _ x _ (upsert_primary_key _ _ K) F' Hx).
    exact E. }
  split; [exact F'|]. split.
  { intros i N. apply row_with_upsert_other. exact N. }
  split.
  { assert (In (id message) (ids (saved message (messages s)))) as H.
    { rewrite ids_saved. apply existsb_id in Hin. rewrite Hin. apply existsb_id. exact Hin. }
    unfold ids in H. apply in_map_iff in H. destruct H as [m [E Hm]].
    exists m. split; assumption. }
  split; [exact Mem|]. split.
  { apply row_with_In in F'. destruct F' as [Hr Er].
    eexists. split; [apply in_map; exact Hr|]. cbn. cbn in Er.
    apply row_with_In in F. destruct F as [_ F]. exact F. }
  split; [exact Rel|].
  intros a b Ha Hb Ea Eb. rewrite (Mem a Ha Ea), (Rel b Hb Eb). cbn.
  repeat split; auto.
Qed.

Lemma upsert_keeps_user_and_role_witness :
  let s := exec (saveMessage hello) empty_room in
  let s' := exec (saveMessage hello_by_bob) s in
  (primary_key (storage s)
   /\ row_with (id hello_by_bob) (storage s) = Some (row_of_message hello)
   /\ In (id hello_by_bob) (ids (messages s)))
  /\ row_with "m1" (storage s')
     = Some (mkRow "m1" "Alice" RoleUser "edited" (Some 9%Z) None)
  /\ forall a b, In a (messages s') -> In b (messages (exec onStart s')) ->
       id a = "m1" -> id b = "m1" ->
       user a = "Bob" /\ role a = RoleAssistant
       /\ user b = "Alice" /\ role b = RoleUser.
Proof.
  cbn zeta.
  assert (primary_key (storage (exec (saveMessage hello) empty_room))) as K.
  { unfold primary_key. cbn. constructor; [intros []|constructor]. }
  assert (row_with (id hello_by_bob) (storage (exec (saveMessage hello) empty_room))
          = Some (row_of_message hello)) as F by reflexivity.
  assert (In (id hello_by_bob) (ids (messages (exec (saveMessage hello) empty_room)))) as I
    by (left; reflexivity).
  split; [split; [exact K|split; [exact F|exact I]]|].
  destruct (upsert_keeps_user_and_role (exec (saveMessage hello) empty_room)
              (row_of_message hello) hello_by_bob K F I) as [R [_ [_ [_ [_ [_ D]]]]]].
  split; [exact R|].
  intros a b Ha Hb Ea Eb. destruct (D a b Ha Hb Ea Eb) as [U [Ro [U' [Ro' _]]]].
  repeat split; assumption.
Defined.

(** ** Distinct ids *)

(** C10.  In every state a room can reach, the ids of the list in memory are
    pairwise distinct (and so are the keys of the table); a [saveMessage]
    call keeps the ids distinct from any state where they are; and the load
    of [onStart] yields distinct ids whenever the primary key of the table
    holds. *)
Theorem message_ids_pairwise_distinct
    (JSON_parse : string -> option Message) (JSON_stringify : Message -> string) :
  (forall s, reachable JSON_parse JSON_stringify s ->
     NoDup (ids (messages s)) /\ primary_key (storage s))
  /\ (forall s m, NoDup (ids (messages s)) ->
        NoDup (ids (messages (exec (saveMessage m) s))))
  /\ (forall s m, primary_key (storage s) ->
        primary_key (storage (exec (saveMessage m) s)))
  /\ (forall s, primary_key (storage s) ->
        NoDup (ids (messages (exec onStart s)))).
Proof.
  split; [apply reachable_invariant|]. split; [|split].
  - intros s m H. rewrite exec_saveMessage. cbn. apply saved_NoDup. exact H.
  - intros s m H. rewrite exec_saveMessage. cbn. apply upsert_primary_key. exact H.
  - intros s H. rewrite exec_onStart. cbn. rewrite ids_message_of_row. exact H.
Qed.

Lemma message_ids_pairwise_distinct_witness :
  let parse := fun _ : string => Some (Add hello_by_bob) in
  let s := exec onStart
             (mkServer [] (storage (exec (onMessage parse "c1" "raw")
                                      (exec (saveMessage hello) (exec onStart empty_room)))) []) in
  reachable parse (fun _ => EmptyString) s
  /\ ids (messages s) = ["m1"]
  /\ NoDup (ids (messages s))
  /\ NoDup (ids (messages (exec (saveMessage hello) s))).
Proof.
  cbn zeta.
  set (parse := fun _ : string => Some (Add hello_by_bob)).
  set (s := exec onStart _).
  assert (reachable parse (fun _ => EmptyString) s) as R.
  { apply reach_onStart.
    apply (reach_hibernate parse (fun _ => EmptyString)
             (exec (onMessage parse "c1" "raw")
                (exec (saveMessage hello) (exec onStart empty_room)))).
    apply reach_onMessage, reach_saveMessage, reach_onStart, reach_created. }
  destruct (message_ids_pairwise_distinct parse (fun _ => EmptyString)) as [Inv [Save _]].
  split; [exact R|]. split; [reflexivity|].
  split; [exact (proj1 (Inv s R))|].
  apply Save. exact (proj1 (Inv s R)).
Defined.

(** ** The client reconciler *)

Lemma findIndex_Some {A : Type} (p : A -> bool) (l : list A) (i : nat) :
  findIndex p l = Some i ->
  exists x, nth_error l i = Some x /\ p x = true
            /\ forall j y, j < i -> nth_error l j = Some y -> p y = false.
Proof.
  revert i; induction l as [|a l IH]; intro i; cbn; [discriminate|].
  destruct (p a) eqn:Pa.
  - intro H. injection H as <-. exists a. split; [reflexivity|]. split; [exact Pa|].
    intros j y Hj. lia.
  - destruct (findIndex p l) as [k|]; [|discriminate].
    intro H. injection H as <-. destruct (IH k eq_refl) as [x [Hx [Px Lt]]].
    exists x. split; [exact Hx|]. split; [exact Px|].
    intros [|j] y Hj Hy; cbn in Hy.
    + injection Hy as <-. exact Pa.
    + apply (Lt j y); [lia|exact Hy].
Qed.

Lemma findIndex_id (i : string) (l : list ChatMessage) :
  In i (ids l) -> exists k, findIndex (fun m => id m =? i) l = Some k.
Proof.
  induction l as [|a l IH]; cbn; [intros []|].
  destruct (String.eqb_spec (id a) i) as [E|E]; [intros _; exists 0; reflexivity|].
  intros [H|H]; [contradiction|]. destruct (IH H) as [k Hk]. rewrite Hk.
  exists (S k). reflexivity.
Qed.

Lemma findIndex_None_id (i : string) (l : list ChatMessage) :
  ~ In i (ids l) -> findIndex (fun m => id m =? i) l = None.
Proof.
  induction l as [|a l IH]; cbn; [reflexivity|].
  intro N. destruct (String.eqb_spec (id a) i) as [E|E].
  - exfalso. apply N. left. exact E.
  - rewrite IH; [reflexivity|]. intro C. apply N. right. exact C.
Qed.

(** A list around its i-th entry. *)
Lemma split_at {A : Type} (l : list A) (i : nat) (x : A) :
  nth_error l i = Some x -> l = firstn i l ++ x :: skipn (S i) l.
Proof.
  revert i; induction l as [|a l IH]; intros [|i] H; cbn in *; try discriminate.
  - injection H as <-. reflexivity.
  - f_equal. apply IH. exact H.
Qed.

Lemma nth_error_replaced {A : Type} (l : list A) (i : nat) (x y : A) :
  nth_error l i = Some x ->
  nth_error (firstn i l ++ y :: skipn (S i) l) i = Some y
  /\ forall j, j <> i -> nth_error (firstn i l ++ y :: skipn (S i) l) j = nth_error l j.
Proof.
  revert i; induction l as [|a l IH]; intros [|i] H; cbn in *; try discriminate.
  - split; [reflexivity|]. intros [|j] N; [contradiction|reflexivity].
  - destruct (IH i H) as [E O]. split; [exact E|].
    intros [|j] N; [reflexivity|]. cbn. apply O. lia.
Qed.

Lemma entries_with_ids (i : string) (l : list ChatMessage) :
  entries_with i l = List.length (filter (fun j => j =? i) (ids l)).
Proof.
  unfold entries_with. induction l as [|a l IH]; cbn; [reflexivity|].
  destruct (id a =? i); cbn; rewrite IH; reflexivity.
Qed.

Lemma entries_with_fresh (i : string) (l : list ChatMessage) :
  ~ In i (ids l) -> entries_with i l = 0.
Proof.
  unfold entries_with. induction l as [|a l IH]; cbn; [reflexivity|].
  intro N. destruct (String.eqb_spec (id a) i) as [E|E].
  - exfalso. apply N. left. exact E.
  - apply IH. intro C. apply N. right. exact C.
Qed.

Lemma entries_with_app (i : string) (l l' : list ChatMessage) :
  entries_with i (l ++ l') = entries_with i l + entries_with i l'.
Proof. unfold entries_with. rewrite filter_app, length_app. reflexivity. Qed.

(** C3.  For every local list and every received add whose id is present in
    it, the reconciler puts the received entry at the position of the first
    entry with that id and leaves every other position, the length and the
    ids as they were, so the number of entries of any id is unchanged.  In
    particular, after an optimistic insertion under an id the list did not
    hold, the echoed add leaves exactly one entry for it, at the end. *)
Theorem echoed_add_replaces_in_place (msgs : list ChatMessage) (p : ChatMessage) :
  In (id p) (ids msgs) ->
  exists i old,
    findIndex (fun m => id m =? id p) msgs = Some i
    /\ nth_error msgs i = Some old /\ id old = id p
    /\ receive msgs (Add p) = firstn i msgs ++ p :: skipn (S i) msgs
    /\ nth_error (receive msgs (Add p)) i = Some p
    /\ (forall j, j <> i -> nth_error (receive msgs (Add p)) j = nth_error msgs j)
    /\ List.length (receive msgs (Add p)) = List.length msgs
    /\ ids (receive msgs (Add p)) = ids msgs
    /\ (forall k, entries_with k (receive msgs (Add p)) = entries_with k msgs)
    /\ (forall before mine,
          msgs = submit mine before -> id mine = id p -> ~ In (id p) (ids before) ->
          receive msgs (Add p) = before ++ [p]
          /\ entries_with (id p) (receive msgs (Add p)) = 1).
Proof.
  intro Hin. destruct (findIndex_id (id p) msgs Hin) as [i Fi].
  destruct (findIndex_Some _ msgs i Fi) as [old [Hold [Eold _]]].
  apply String.eqb_eq in Eold.
  assert (receive msgs (Add p) = firstn i msgs ++ p :: skipn (S i) msgs) as R.
  { unfold receive, client_onMessage. rewrite Fi, eta_message.
    unfold slice_to, slice_from. rewrite Nat.add_1_r. reflexivity. }
  assert (ids (receive msgs (Add p)) = ids msgs) as I.
  { rewrite R. rewrite (split_at msgs i old Hold) at 3. unfold ids.
    rewrite !map_app. cbn [map]. rewrite Eold. reflexivity. }
  exists i, old. split; [exact Fi|]. split; [exact Hold|]. split; [exact Eold|].
  split; [exact R|]. rewrite R.
  destruct (nth_error_replaced msgs i old p Hold) as [Hi Ho].
  split; [exact Hi|]. split; [exact Ho|]. rewrite <- R.
  split; [|split; [exact I|split]].
  - rewrite <- (length_map id), <- (length_map id msgs). fold (ids (receive msgs (Add p))).
    fold (ids msgs). rewrite I. reflexivity.
  - intro k. rewrite !entries_with_ids, I. reflexivity.
  - intros before mine E Em Fresh. subst msgs. unfold submit in *.
    assert (findIndex (fun m => id m =? id p) (before ++ [mine])
            = Some (List.length before)) as F.
    { clear - Em Fresh. induction before as [|a l IH]; cbn.
      - rewrite Em, String.eqb_refl. reflexivity.
      - destruct (String.eqb_spec (id a) (id p)) as [E|E].
        + exfalso. apply Fresh. left. exact E.
        + rewrite IH; [reflexivity|]. intro C. apply Fresh. right. exact C. }
    rewrite F in Fi. injection Fi as <-.
    assert (firstn (List.length before) (before ++ [mine])
              ++ p :: skipn (S (List.length before)) (before ++ [mine])
            = before ++ [p]) as E.
    { rewrite firstn_app, firstn_all, Nat.sub_diag. cbn [firstn].
      rewrite app_nil_r. rewrite skipn_all2; [reflexivity|].
      rewrite length_app. cbn. lia. }
    rewrite R, E. split; [reflexivity|].
    rewrite entries_with_app, (entries_with_fresh _ _ Fresh).
    unfold entries_with. cbn. rewrite String.eqb_refl. reflexivity.
Qed.

Lemma echoed_add_replaces_in_place_witness :
  let earlier := mkChat "m0" "welcome" "Bob" RoleUser None None in
  let confirmed := mkChat "m1" "hi" "Alice" RoleUser (Some 7%Z) None in
  In (id confirmed) (ids (submit hello [earlier]))
  /\ receive (submit hello [earlier]) (Add confirmed) = [earlier; confirmed]
  /\ entries_with "m1" (receive (submit hello [earlier]) (Add confirmed)) = 1.
Proof.
  cbn zeta.
  assert (In "m1" (ids (submit hello [mkChat "m0" "welcome" "Bob" RoleUser None None])))
    as H by (right; left; reflexivity).
  split; [exact H|].
  destruct (echoed_add_replaces_in_place
              (submit hello [mkChat "m0" "welcome" "Bob" RoleUser None None])
              (mkChat "m1" "hi" "Alice" RoleUser (Some 7%Z) None) H)
    as [i [old [_ [_ [_ [_ [_ [_ [_ [_ [_ O]]]]]]]]]]].
  apply (O [mkChat "m0" "welcome" "Bob" RoleUser None None] hello eq_refl eq_refl).
  cbn. intros [C|[]]. discriminate C.
Defined.

(** ** Geometry *)

Section FloatFacts.

Local Open Scope float_scope.

Lemma eqb_zero_cases (m : float) : (m =? 0) = true -> m = 0 \/ m = -0.
Proof.
  intro H. rewrite eqb_spec in H.
  change (Prim2SF 0) with (S754_zero false) in H.
  rewrite <- (SF2Prim_Prim2SF m).
  destruct (Prim2SF m) as [s|s| |s mm e]; try destruct s; try discriminate H;
    [right|left]; reflexivity.
Qed.

Lemma Math_max_cases (a b : float) :
  Math_max a b = nan \/ Math_max a b = a \/ Math_max a b = b.
Proof.
  unfold Math_max.
  destruct (is_nan a || is_nan b); [left; reflexivity|].
  destruct (a <? b); [right; right; reflexivity|].
  destruct (b <? a); [right; left; reflexivity|].
  destruct (is_zero a && get_sign a); [right; right|right; left]; reflexivity.
Qed.

Lemma nan_sub (z : float) : nan - z = nan.
Proof. apply Prim2SF_inj. rewrite sub_spec. reflexivity. Qed.

End FloatFacts.

Section GeometryFacts.

Local Open Scope float_scope.

Variable Number : string -> float.
Variable parseFloat : string -> float.
Variable Number_toString : float -> string.
Variable toFixed : nat -> float -> string.

(** C5.  For every source document, with [b] its resolved bounds,
    [normalizeSvg] writes the transform of the scale 300 / max(width, height)
    and of the offsets (300 - width * scale) / 2 - x * scale and
    (300 - height * scale) / 2 - y * scale; for a document whose [viewBox]
    is [0 0 50 200] these are 1.5, 112.5 and 0, and the scaled content is 75
    by 300. *)
Theorem normalize_scale_and_offsets (svgContent : string) :
  let b := resolveBounds Number parseFloat svgContent in
  let c := normalizeCentering b in
  normalizeSvg Number parseFloat Number_toString svgContent
  = rewriteSvg Number_toString svgContent c
  /\ scale c = 300 / Math_max (bwidth b) (bheight b)
  /\ offsetX c = (300 - bwidth b * scale c) / 2 - bx b * scale c
  /\ offsetY c = (300 - bheight b * scale c) / 2 - by_ b * scale c
  /\ (match_attribute "viewBox" svgContent = Some "0 0 50 200"%string ->
      Number "0" = 0 -> Number "50" = 50 -> Number "200" = 200 ->
      b = mkBounds 0 0 50 200
      /\ c = mkCentering 1.5 112.5 0
      /\ bwidth b * scale c = 75 /\ bheight b * scale c = 300).
Proof.
  cbn zeta. repeat (split; [reflexivity|]).
  intros V N0 N50 N200. unfold resolveBounds. rewrite V.
  change (split_spaces "0 0 50 200") with ["0"; "0"; "50"; "200"]%string.
  cbn [map nth]. rewrite N0, N50, N200.
  repeat split; reflexivity.
Qed.

End GeometryFacts.

Lemma normalize_scale_and_offsets_witness :
  (match_attribute "viewBox" tall_doc = Some "0 0 50 200"
   /\ sample_Number "0" = 0%float /\ sample_Number "50" = 50%float
   /\ sample_Number "200" = 200%float)
  /\ normalizeCentering (resolveBounds sample_Number sample_Number tall_doc)
     = mkCentering 1.5 112.5 0
  /\ normalizeSvg sample_Number sample_Number sample_toString tall_doc
     = tall_doc_normalized.
Proof.
  assert (match_attribute "viewBox" tall_doc = Some "0 0 50 200") as V by reflexivity.
  assert (sample_Number "0" = 0%float) as N0 by reflexivity.
  assert (sample_Number "50" = 50%float) as N50 by reflexivity.
  assert (sample_Number "200" = 200%float) as N200 by reflexivity.
  split; [repeat split; assumption|].
  destruct (normalize_scale_and_offsets sample_Number sample_Number sample_toString tall_doc)
    as [R [_ [_ [_ S]]]].
  destruct (S V N0 N50 N200) as [_ [C _]].
  split; [exact C|]. rewrite R, C. vm_compute. reflexivity.
Defined.

Section DegenerateBounds.

Local Open Scope float_scope.

Variable Number : string -> float.
Variable parseFloat : string -> float.
Variable Number_toString : float -> string.

Lemma zero_times_infinite (w s : float) :
  w = 0 \/ w = -0 -> s = infinity \/ s = neg_infinity -> w * s = nan.
Proof. intros [-> | ->] [-> | ->]; reflexivity. Qed.

Lemma centred_nan (z : float) : (targetSize - nan) / 2 - z = nan.
Proof. change ((targetSize - nan) / 2) with nan. apply nan_sub. Qed.

(** C4, as the code has it.  [normalizeSvg] has no failure: for every source
    document whose resolved bounds satisfy max(width, height) == 0 it returns
    the rewritten document all the same, with an infinite scale (300 / 0) and
    with at least one offset that is NaN. *)
Theorem normalize_degenerate_bounds (svgContent : string) :
  let b := resolveBounds Number parseFloat svgContent in
  let c := normalizeCentering b in
  (Math_max (bwidth b) (bheight b) =? 0) = true ->
  normalizeSvg Number parseFloat Number_toString svgContent
  = rewriteSvg Number_toString svgContent c
  /\ (scale c = infinity \/ scale c = neg_infinity)
  /\ (offsetX c = nan \/ offsetY c = nan).
Proof.
  cbn zeta. intro H. split; [reflexivity|].
  set (b := resolveBounds Number parseFloat svgContent) in *.
  assert (scale (normalizeCentering b) = infinity
          \/ scale (normalizeCentering b) = neg_infinity) as S.
  { cbn [normalizeCentering scale].
    destruct (eqb_zero_cases _ H) as [E|E]; rewrite E; [left|right]; reflexivity. }
  split; [exact S|].
  assert (((bwidth b =? 0) = true) \/ ((bheight b =? 0) = true)) as Z.
  { destruct (Math_max_cases (bwidth b) (bheight b)) as [E|[E|E]]; rewrite E in H.
    - discriminate H.
    - left. exact H.
    - right. exact H. }
  cbn [normalizeCentering scale offsetX offsetY] in *.
  destruct Z as [Z|Z]; [left|right];
    rewrite (zero_times_infinite _ _ (eqb_zero_cases _ Z) S); apply centred_nan.
Qed.

End DegenerateBounds.

Lemma normalize_degenerate_bounds_witness :
  let b := resolveBounds sample_Number sample_Number empty_doc in
  (Math_max (bwidth b) (bheight b) =? 0)%float = true
  /\ normalizeSvg sample_Number sample_Number sample_toString empty_doc
     = rewriteSvg sample_toString empty_doc (normalizeCentering b)
  /\ (scale (normalizeCentering b) = infinity \/ scale (normalizeCentering b) = neg_infinity).
Proof.
  cbn zeta.
  assert ((Math_max (bwidth (resolveBounds sample_Number sample_Number empty_doc))
                    (bheight (resolveBounds sample_Number sample_Number empty_doc)) =? 0)%float
          = true) as H by reflexivity.
  split; [exact H|].
  destruct (normalize_degenerate_bounds sample_Number sample_Number sample_toString
              empty_doc H) as [R [S _]].
  split; [exact R|exact S].
Defined.

(** C4 fails as stated: a document whose bounds are 0 by 0 is normalised
    into a document, whose transform holds NaN and Infinity. *)
Lemma normalize_degenerate_no_error :
  let b := resolveBounds sample_Number sample_Number empty_doc in
  b = mkBounds 0 0 0 0
  /\ (Math_max (bwidth b) (bheight b) =? 0)%float = true
  /\ normalizeSvg sample_Number sample_Number sample_toString empty_doc
     = empty_doc_normalized.
Proof. cbn zeta. repeat split; vm_compute; reflexivity. Qed.

Lemma append_assoc (a b c : string) : ((a ++ b) ++ c = a ++ (b ++ c))%string.
Proof. induction a as [|x a IH]; cbn; [reflexivity|rewrite IH; reflexivity]. Qed.

(** ** The two centring computations *)

Section Centering.

Local Open Scope float_scope.

Variable Number_toString : float -> string.
Variable toFixed : nat -> float -> string.

(** C6, as the code has it.  For every bounding box the ink encoder and
    [normalizeSvg] compute the same scale, 300 / max(width, height), and the
    same centring term (300 - size * scale) / 2; the ink encoder's offsets
    are that term, [normalizeSvg]'s offsets are that term less x * scale
    (y * scale), and the ink encoder writes the shift of the origin as a
    translation of its own after the scale. *)
Theorem ink_centering_against_normalize (b : Bounds) (paths : list Stroke) :
  scale (inkCentering b) = scale (normalizeCentering b)
  /\ scale (inkCentering b) = 300 / Math_max (bwidth b) (bheight b)
  /\ offsetX (inkCentering b) = (300 - bwidth b * scale (inkCentering b)) / 2
  /\ offsetY (inkCentering b) = (300 - bheight b * scale (inkCentering b)) / 2
  /\ offsetX (normalizeCentering b)
     = offsetX (inkCentering b) - bx b * scale (inkCentering b)
  /\ offsetY (normalizeCentering b)
     = offsetY (inkCentering b) - by_ b * scale (inkCentering b)
  /\ exists head tail,
       generateSvgBlob Number_toString toFixed paths
       = (head
          ++ "translate(" ++ toFixed 2 (offsetX (inkCentering (inkBounds paths))) ++ ","
          ++ toFixed 2 (offsetY (inkCentering (inkBounds paths))) ++ ")"
          ++ " scale(" ++ toFixed 4 (scale (inkCentering (inkBounds paths))) ++ ")"
          ++ " translate(" ++ toFixed 2 (- bx (inkBounds paths)) ++ ","
          ++ toFixed 2 (- by_ (inkBounds paths)) ++ ")" ++ tail)%string.
Proof.
  repeat (split; [reflexivity|]).
  exists ("<svg xmlns=" ++ DQ ++ "http://www.w3.org/2000/svg" ++ DQ
          ++ " width=" ++ DQ ++ Number_toString targetSize ++ DQ
          ++ " height=" ++ DQ ++ Number_toString targetSize ++ DQ
          ++ " viewBox=" ++ DQ ++ "0 0 " ++ Number_toString targetSize ++ " "
          ++ Number_toString targetSize ++ DQ ++ ">" ++ "<g transform=" ++ DQ)%string.
  exists (DQ ++ ">" ++ String.concat EmptyString (map (pathElement Number_toString toFixed) paths)
          ++ "</g></svg>")%string.
  unfold generateSvgBlob. cbn zeta. rewrite !append_assoc. reflexivity.
Qed.

End Centering.

(** C6 fails as stated: for the padded box of one diagonal stroke, at
    (50, 50) and 100 by 100, the scale is 3 in both computations, while the
    ink encoder's offsets are 0 and those of [normalizeSvg] are -150. *)
Lemma ink_offsets_differ_from_normalize :
  let b := inkBounds diagonal in
  b = mkBounds 50 50 100 100
  /\ (0 <? Math_max (bwidth b) (bheight b))%float = true
  /\ inkCentering b = mkCentering 3 0 0
  /\ normalizeCentering b = mkCentering 3 (-150) (-150)
  /\ offsetX (inkCentering b) <> offsetX (normalizeCentering b)
  /\ offsetY (inkCentering b) <> offsetY (normalizeCentering b).
Proof.
  cbn zeta. repeat (split; [reflexivity|]).
  change (offsetX (inkCentering (inkBounds diagonal))) with 0%float.
  change (offsetY (inkCentering (inkBounds diagonal))) with 0%float.
  change (offsetX (normalizeCentering (inkBounds diagonal))) with (-150)%float.
  change (offsetY (normalizeCentering (inkBounds diagonal))) with (-150)%float.
  assert (0%float <> (-150)%float) as N.
  { intro H. apply (f_equal (fun x => (x =? 0)%float)) in H. discriminate H. }
  split; exact N.
Qed.

(** ** The upload boundary *)

Lemma sanitize_safe (s : string) : string_forallb is_safe_char (sanitize s) = true.
Proof.
  induction s as [|c s IH]; cbn; [reflexivity|].
  rewrite IH, andb_true_r. destruct (is_safe_char c) eqn:E; [exact E|reflexivity].
Qed.

Lemma safe_char_no_slash (c : ascii) : is_safe_char c = true -> (c =? "/")%char = false.
Proof.
  intro H. destruct (Ascii.eqb_spec c "/"%char) as [E|E]; [|reflexivity].
  subst c. discriminate H.
Qed.

Lemma segments_nonempty (s : string) : segments s <> [].
Proof.
  induction s as [|c s IH]; cbn; [discriminate|].
  destruct (c =? "/")%char; [discriminate|].
  destruct (segments s); [contradiction|discriminate].
Qed.

(** A segment of safe code units ends at the slash that follows it. *)
Lemma segments_safe_prefix (a rest : string) :
  string_forallb is_safe_char a = true ->
  segments (a ++ String "/" rest) = a :: segments rest.
Proof.
  induction a as [|c a IH]; cbn; [reflexivity|].
  intro H. apply andb_true_iff in H. destruct H as [Hc Ha].
  rewrite (safe_char_no_slash c Hc), (IH Ha). reflexivity.
Qed.

Lemma storage_key_segments (r u m name : string) :
  string_forallb is_safe_char r = true ->
  string_forallb is_safe_char u = true ->
  string_forallb is_safe_char m = true ->
  segments (storage_key r u m name) = "svgs" :: r :: u :: m :: segments name.
Proof.
  intros Hr Hu Hm. unfold storage_key.
  change ("svgs/" ++ r ++ "/" ++ u ++ "/" ++ m ++ "/" ++ name)%string
    with ("svgs" ++ String "/" (r ++ String "/" (u ++ String "/" (m ++ String "/" name))))%string.
  rewrite (segments_safe_prefix "svgs" _ eq_refl).
  rewrite (segments_safe_prefix r _ Hr), (segments_safe_prefix u _ Hu),
    (segments_safe_prefix m _ Hm).
  reflexivity.
Qed.

Section UploadFacts.

Arguments storage_key : simpl never.

Variable Number : string -> float.
Variable parseFloat : string -> float.
Variable Number_toString : float -> string.
Variable randomUUID : nat -> string.
Variable put_accepted : string -> bool.

Local Abbreviation loop :=
  (upload_loop Number parseFloat Number_toString randomUUID put_accepted).
Local Abbreviation upload :=
  (handleSvgUpload Number parseFloat Number_toString randomUUID put_accepted).
Local Abbreviation message_id := (message_id_of randomUUID).

(** The loop never answers for a file it skips, and stores under
    [storage_key] only. *)
Lemma upload_loop_bucket (r u m : string) (files : list File)
    (acc : list SvgAttachment) (env : Env) (key v : string) :
  In (key, v) (SVG_BUCKET (snd (loop r u m files acc env))) ->
  In (key, v) (SVG_BUCKET env)
  \/ exists file, In file files /\ is_svg_file file = true
                  /\ key = storage_key r u m (file_name file).
Proof.
  revert acc env. induction files as [|f files IH]; intros acc env; cbn.
  - intro H. left. exact H.
  - unfold is_svg_file. destruct (is_skipped f) eqn:V; cbn [negb].
    + intro H. apply IH in H. destruct H as [H|[file [Hin [Hv Hk]]]].
      * left. exact H.
      * right. exists file. split; [right; exact Hin|]. split; assumption.
    + destruct (put_accepted (storage_key r u m (file_name f))) eqn:P.
      * intro H. apply IH in H. destruct H as [H|[file [Hin [Hv Hk]]]].
        -- cbn in H. destruct H as [H|H].
           ++ right. exists f. split; [left; reflexivity|].
              split; [unfold is_svg_file; rewrite V; reflexivity|].
              injection H as <- _. reflexivity.
           ++ left. exact H.
        -- right. exists file. split; [right; exact Hin|]. split; assumption.
      * cbn. intro H. left. exact H.
Qed.

(** With a bucket that accepts every put, the loop answers with one
    descriptor per file it does not skip, in the order of the files. *)
Lemma upload_loop_accepted (r u m : string) (files : list File)
    (acc : list SvgAttachment) (env : Env) :
  (forall key, put_accepted key = true) ->
  exists uploaded,
    fst (loop r u m files acc env) = Normal (acc ++ uploaded)
    /\ map filename uploaded = map file_name (filter is_svg_file files)
    /\ map url uploaded
       = map (fun f => ("/api/svg/" ++ storage_key r u m (file_name f))%string)
             (filter is_svg_file files)
    /\ map svg_id uploaded
       = map randomUUID (seq (uuids_drawn env) (List.length (filter is_svg_file files))).
Proof.
  intro A. revert acc env. induction files as [|f files IH]; intros acc env; cbn.
  - exists []. rewrite app_nil_r. repeat split; reflexivity.
  - unfold is_svg_file. destruct (is_skipped f) eqn:V; cbn [negb]; [apply IH|].
    + rewrite A.
      destruct (IH (acc ++ [mkSvg (randomUUID (uuids_drawn env))
                              ("/api/svg/" ++ storage_key r u m (file_name f))
                              (file_name f)])
                   (mkEnv ((storage_key r u m (file_name f),
                            normalizeSvg Number parseFloat Number_toString (file_text f))
                           :: SVG_BUCKET env) (S (uuids_drawn env))))
        as [up [E [Fn [U I]]]].
      exists (mkSvg (randomUUID (uuids_drawn env))
                ("/api/svg/" ++ storage_key r u m (file_name f)) (file_name f) :: up).
      split; [|split; [|split]].
      * unfold loop in *. cbn in E |- *. rewrite E, <- app_assoc. reflexivity.
      * cbn. rewrite Fn. reflexivity.
      * cbn. rewrite U. reflexivity.
      * cbn. cbn in I. rewrite I. reflexivity.
Qed.

(** A POST whose body parses goes through the loop, unless it has no file. *)
Lemma handleSvgUpload_post (request : Request) (form : FormData) (env : Env) :
  method request = "POST" -> formData request = Some form ->
  exists env0,
    SVG_BUCKET env0 = SVG_BUCKET env
    /\ upload request env =
       if Nat.eqb (List.length (form_svgs form)) 0 then
         (mkResponse 400 (BodyError "No files uploaded"), env0)
       else
         match upload_loop Number parseFloat Number_toString randomUUID put_accepted
                 (sanitize (or_default (form_room form) "default"))
                 (sanitize (or_default (form_user form) "anonymous"))
                 (sanitize (message_id form env))
                 (form_svgs form) [] env0 with
         | (Normal uploadedSvgs, env1) => (mkResponse 200 (BodySvgs uploadedSvgs), env1)
         | (Throw _, env1) => (mkResponse 500 (BodyError "Upload failed"), env1)
         end.
Proof.
  intros M F. unfold handleSvgUpload, message_id_of. rewrite M, F. cbn [String.eqb negb].
  change ("POST" =? "POST") with true. cbn [negb].
  destruct (form_messageId form) as [[|c s]|]; eexists; (split; [|reflexivity]); reflexivity.
Qed.

(** C7, as the code has it.  A POST submission whose body parses is answered
    with status 400 when it carries no file at all, and never otherwise; when
    it carries files and the bucket accepts every put, it is answered with
    status 200 and one descriptor per file that is an SVG by type or by name,
    in submission order, which is the empty list when no file is one. *)
Theorem upload_rejects_only_empty_submissions
    (request : Request) (form : FormData) (env : Env) :
  method request = "POST" -> formData request = Some form ->
  let response := fst (upload request env) in
  let valid := filter is_svg_file (form_svgs form) in
  (form_svgs form = [] -> response = mkResponse 400 (BodyError "No files uploaded"))
  /\ (form_svgs form <> [] -> status response = 200 \/ status response = 500)
  /\ (form_svgs form <> [] -> (forall key, put_accepted key = true) ->
      exists uploaded,
        response = mkResponse 200 (BodySvgs uploaded)
        /\ map filename uploaded = map file_name valid
        /\ List.length uploaded = List.length valid
        /\ (valid = [] -> uploaded = [])).
Proof.
  intros M F. cbn zeta.
  destruct (handleSvgUpload_post request form env M F) as [env0 [_ E]]. rewrite E.
  split; [|split].
  - intro H. rewrite H. reflexivity.
  - intro H. destruct (form_svgs form) as [|f files] eqn:Fs; [contradiction|].
    cbn [List.length Nat.eqb].
    destruct (upload_loop _ _ _ _ _ _ _ _ _ _ _) as [[up|e] env1]; [left|right]; reflexivity.
  - intros H A. destruct (form_svgs form) as [|f files] eqn:Fs; [contradiction|].
    cbn [List.length Nat.eqb].
    destruct (upload_loop_accepted
                (sanitize (or_default (form_room form) "default"))
                (sanitize (or_default (form_user form) "anonymous"))
                (sanitize (message_id form env)) (f :: files) [] env0 A)
      as [up [L [Fn _]]].
    destruct (upload_loop _ _ _ _ _ _ _ _ _ _ _) as [[up'|e] env1]; cbn in L; [|discriminate L].
    injection L as ->. exists up. split; [reflexivity|]. split; [exact Fn|].
    split.
    + rewrite <- (length_map filename), Fn, length_map. reflexivity.
    + intro V. rewrite V in Fn. destruct up; [reflexivity|discriminate Fn].
Qed.

(** C8, as the code has it.  Every object a POST stores has the key
    [svgs/room/user/messageId/name], where room, user and messageId are the
    sanitised fields, made of letters, digits, underscore and hyphen only, and
    name is the name of the file as submitted: the first four segments of the
    key are [svgs] and the three sanitised fields, and the segments of the
    name follow. *)
Theorem stored_key_namespace_sanitized
    (request : Request) (form : FormData) (env : Env) :
  method request = "POST" -> formData request = Some form ->
  let env' := snd (upload request env) in
  let room := sanitize (or_default (form_room form) "default") in
  let user := sanitize (or_default (form_user form) "anonymous") in
  let messageId := sanitize (message_id form env) in
  string_forallb is_safe_char room = true
  /\ string_forallb is_safe_char user = true
  /\ string_forallb is_safe_char messageId = true
  /\ forall key v,
       In (key, v) (SVG_BUCKET env') ->
       In (key, v) (SVG_BUCKET env)
       \/ exists file,
            In file (form_svgs form) /\ is_svg_file file = true
            /\ key = storage_key room user messageId (file_name file)
            /\ segments key
               = "svgs" :: room :: user :: messageId :: segments (file_name file).
Proof.
  intros M F. cbn zeta.
  split; [apply sanitize_safe|]. split; [apply sanitize_safe|]. split; [apply sanitize_safe|].
  intros key v.
  destruct (handleSvgUpload_post request form env M F) as [env0 [B E]]. rewrite E.
  destruct (Nat.eqb (List.length (form_svgs form)) 0).
  - cbn. rewrite B. intro H. left. exact H.
  - intro H.
    assert (In (key, v)
              (SVG_BUCKET
                 (snd (upload_loop Number parseFloat Number_toString randomUUID put_accepted
                         (sanitize (or_default (form_room form) "default"))
                         (sanitize (or_default (form_user form) "anonymous"))
                         (sanitize (message_id form env)) (form_svgs form) [] env0))))
      as H'.
    { destruct (upload_loop _ _ _ _ _ _ _ _ _ _ _) as [[up|e] env1]; exact H. }
    apply upload_loop_bucket in H'. rewrite B in H'.
    destruct H' as [H'|[file [Hin [V K]]]]; [left; exact H'|].
    right. exists file. split; [exact Hin|]. split; [exact V|]. split; [exact K|].
    rewrite K. apply storage_key_segments; apply sanitize_safe.
Qed.

End UploadFacts.

Lemma upload_rejects_only_empty_submissions_witness :
  let request := upload_of [svg_file "a.svg"; png_file; svg_file "b.svg"] in
  (method request = "POST"
   /\ formData request
      = Some (mkForm [svg_file "a.svg"; png_file; svg_file "b.svg"]
                (Some "lobby") (Some "Alice") (Some "m1")))
  /\ exists uploaded,
       fst (handleSvgUpload sample_Number sample_Number sample_toString sample_uuid
              accept_all request fresh_env)
       = mkResponse 200 (BodySvgs uploaded)
       /\ map filename uploaded = ["a.svg"; "b.svg"].
Proof.
  cbn zeta. split; [split; reflexivity|].
  destruct (upload_rejects_only_empty_submissions sample_Number sample_Number sample_toString
              sample_uuid accept_all
              (upload_of [svg_file "a.svg"; png_file; svg_file "b.svg"])
              (mkForm [svg_file "a.svg"; png_file; svg_file "b.svg"]
                 (Some "lobby") (Some "Alice") (Some "m1"))
              fresh_env eq_refl eq_refl) as [_ [_ U]].
  destruct (U ltac:(discriminate) (fun _ => eq_refl)) as [uploaded [R [Fn _]]].
  exists uploaded. split; [exact R|exact Fn].
Defined.

(** C7 fails as stated: a submission whose only file is a PNG is answered
    with status 200 and an empty list, not with status 400. *)
Lemma upload_of_non_svg_files_succeeds :
  filter is_svg_file [png_file] = []
  /\ fst (handleSvgUpload sample_Number sample_Number sample_toString sample_uuid
            accept_all (upload_of [png_file]) fresh_env)
     = mkResponse 200 (BodySvgs [])
  /\ status (fst (handleSvgUpload sample_Number sample_Number sample_toString sample_uuid
                    accept_all (upload_of [png_file]) fresh_env)) <> 400.
Proof. split; [reflexivity|]. split; [reflexivity|]. cbn. discriminate. Qed.

Lemma stored_key_namespace_sanitized_witness :
  let request := upload_of [svg_file "a.svg"] in
  (method request = "POST"
   /\ formData request
      = Some (mkForm [svg_file "a.svg"] (Some "lobby") (Some "Alice") (Some "m1")))
  /\ forall key v,
       In (key, v) (SVG_BUCKET (snd (handleSvgUpload sample_Number sample_Number
                                       sample_toString sample_uuid accept_all
                                       request fresh_env))) ->
       segments key = ["svgs"; "lobby"; "Alice"; "m1"; "a.svg"].
Proof.
  cbn zeta. split; [split; reflexivity|].
  intros key v H.
  destruct (stored_key_namespace_sanitized sample_Number sample_Number sample_toString
              sample_uuid accept_all (upload_of [svg_file "a.svg"])
              (mkForm [svg_file "a.svg"] (Some "lobby") (Some "Alice") (Some "m1"))
              fresh_env eq_refl eq_refl) as [_ [_ [_ K]]].
  destruct (K key v H) as [[]|[file [Hin [_ [_ S]]]]].
  destruct Hin as [<-|[]]. exact S.
Defined.

(** C8 fails as stated: the name of the file is a segment of the key as it
    was submitted, so a dot, and a name that climbs out of the folder, reach
    the key. *)
Lemma stored_key_keeps_file_name :
  let env' := snd (handleSvgUpload sample_Number sample_Number sample_toString sample_uuid
                     accept_all (upload_of [svg_file "../../evil.svg"]) fresh_env) in
  map fst (SVG_BUCKET env') = ["svgs/lobby/Alice/m1/../../evil.svg"]
  /\ map segments (map fst (SVG_BUCKET env'))
     = [["svgs"; "lobby"; "Alice"; "m1"; ".."; ".."; "evil.svg"]]
  /\ forallb (string_forallb is_safe_char)
       ["svgs"; "lobby"; "Alice"; "m1"; ".."; ".."; "evil.svg"] = false.
Proof. cbn zeta. repeat split; vm_compute; reflexivity. Qed.

(** * Further properties *)

(** ** More on the room message store *)

Lemma saved_cons (m a : ChatMessage) (l : list ChatMessage) :
  saved m (a :: l) =
  if id a =? id m
  then m :: map (fun x => if id x =? id m then m else x) l
  else a :: saved m l.
Proof.
  unfold saved. cbn [find map]. destruct (id a =? id m) eqn:E; [reflexivity|].
  destruct (find (fun x => id x =? id m) l); reflexivity.
Qed.

Lemma replace_absent (m : ChatMessage) (l : list ChatMessage) :
  ~ In (id m) (ids l) -> map (fun x => if id x =? id m then m else x) l = l.
Proof.
  induction l as [|a l IH]; cbn; [reflexivity|].
  intro N. destruct (String.eqb_spec (id a) (id m)) as [E|E].
  - exfalso. apply N. left. exact E.
  - rewrite IH; [reflexivity|]. intro C. apply N. right. exact C.
Qed.

Lemma saved_absent (m : ChatMessage) (l : list ChatMessage) :
  ~ In (id m) (ids l) -> saved m l = l ++ [m].
Proof.
  intro N. unfold saved. apply find_id_none in N. rewrite N. reflexivity.
Qed.

Lemma saved_present (m : ChatMessage) (l : list ChatMessage) :
  In (id m) (ids l) -> saved m l = map (fun x => if id x =? id m then m else x) l.
Proof.
  intro H. unfold saved.
  destruct (find (fun x => id x =? id m) l) eqn:F; [reflexivity|].
  apply find_id_none in F. contradiction.
Qed.

Lemma sql_upsert_absent (r : Row) (t : Table) :
  ~ In (row_id r) (map row_id t) -> sql_upsert r t = t ++ [r].
Proof.
  induction t as [|a t IH]; cbn; [reflexivity|].
  intro N. destruct (String.eqb_spec (row_id a) (row_id r)) as [E|E].
  - exfalso. apply N. left. exact E.
  - rewrite IH; [reflexivity|]. intro C. apply N. right. exact C.
Qed.

Lemma sql_upsert_twice (r : Row) (t : Table) :
  sql_upsert r (sql_upsert r t) = sql_upsert r t.
Proof.
  induction t as [|a t IH]; cbn.
  - rewrite String.eqb_refl. destruct r; reflexivity.
  - destruct (row_id a =? row_id r) eqn:E; cbn; rewrite E; [reflexivity|].
    rewrite IH. reflexivity.
Qed.

Lemma saved_twice (m : ChatMessage) (l : list ChatMessage) :
  saved m (saved m l) = saved m l.
Proof.
  assert (In (id m) (ids (saved m l))) as H.
  { rewrite ids_saved. destruct (existsb (String.eqb (id m)) (ids l)) eqn:E.
    - apply existsb_id. exact E.
    - apply in_or_app. right. left. reflexivity. }
  rewrite (saved_present m _ H).
  unfold saved. destruct (find (fun x => id x =? id m) l) eqn:F.
  - rewrite map_map. apply map_ext. intro a.
    destruct (id a =? id m) eqn:E; [rewrite String.eqb_refl|rewrite E]; reflexivity.
  - apply find_id_none in F. rewrite map_app, (replace_absent m l F). cbn.
    rewrite String.eqb_refl. reflexivity.
Qed.

(** X1.  Saving the same message a second time changes neither the list in
    memory nor the table: an add followed by its own repetition (a resend, an
    identical update) is absorbed. *)
Theorem saveMessage_twice_is_once (message : ChatMessage) (s : Chat) :
  let once := exec (saveMessage message) s in
  let twice := exec (saveMessage message) once in
  messages twice = messages once /\ storage twice = storage once.
Proof.
  cbn zeta. rewrite !exec_saveMessage. cbn [messages storage].
  split; [apply saved_twice|apply sql_upsert_twice].
Qed.

Lemma saved_others (m : ChatMessage) (l : list ChatMessage) :
  filter (fun x => negb (id x =? id m)) (saved m l)
  = filter (fun x => negb (id x =? id m)) l.
Proof.
  induction l as [|a l IH].
  - cbn. rewrite String.eqb_refl. reflexivity.
  - rewrite saved_cons. destruct (id a =? id m) eqn:E.
    + cbn [filter]. rewrite String.eqb_refl, E. cbn [negb].
      clear IH. induction l as [|b l IH]; cbn; [reflexivity|].
      destruct (id b =? id m) eqn:Eb; cbn; [rewrite String.eqb_refl|rewrite Eb]; cbn;
        rewrite IH; reflexivity.
    + cbn [filter]. rewrite E. cbn [negb]. rewrite IH. reflexivity.
Qed.

Lemma sql_upsert_others (r : Row) (t : Table) :
  filter (fun x => negb (row_id x =? row_id r)) (sql_upsert r t)
  = filter (fun x => negb (row_id x =? row_id r)) t.
Proof.
  induction t as [|a t IH]; cbn.
  - rewrite String.eqb_refl. reflexivity.
  - destruct (row_id a =? row_id r) eqn:E; cbn; rewrite E; cbn; [reflexivity|].
    rewrite IH. reflexivity.
Qed.

Lemma length_saved (m : ChatMessage) (l : list ChatMessage) :
  List.length (saved m l)
  = if existsb (String.eqb (id m)) (ids l) then List.length l else S (List.length l).
Proof.
  rewrite <- (length_map id (saved m l)). fold (ids (saved m l)). rewrite ids_saved.
  destruct (existsb (String.eqb (id m)) (ids l)).
  - unfold ids. apply length_map.
  - rewrite length_app. unfold ids. rewrite length_map. cbn. lia.
Qed.

(** X2.  A save touches one id only: the messages of every other id stay in
    memory as they were and in their order, and so do the rows of every other
    id; the list grows by one entry when the id is new and keeps its length
    when it is known. *)
Theorem saveMessage_leaves_other_ids (message : ChatMessage) (s : Chat) :
  let s' := exec (saveMessage message) s in
  filter (fun x => negb (id x =? id message)) (messages s')
  = filter (fun x => negb (id x =? id message)) (messages s)
  /\ filter (fun r => negb (row_id r =? id message)) (storage s')
     = filter (fun r => negb (row_id r =? id message)) (storage s)
  /\ List.length (messages s')
     = (if existsb (String.eqb (id message)) (ids (messages s))
        then List.length (messages s) else S (List.length (messages s)))
  /\ (forall i, i <> id message ->
        row_with i (storage s') = row_with i (storage s)
        /\ find (fun x => id x =? i) (messages s') = find (fun x => id x =? i) (messages s)).
Proof.
  cbn zeta. rewrite exec_saveMessage. cbn [messages storage].
  split; [apply saved_others|]. split; [apply (sql_upsert_others (row_of_message message))|].
  split; [apply length_saved|].
  intros i N. split; [apply row_with_upsert_other; exact N|].
  induction (messages s) as [|a l IH].
  - cbn. destruct (String.eqb_spec (id message) i) as [E|E]; [congruence|reflexivity].
  - rewrite saved_cons. destruct (String.eqb_spec (id a) (id message)) as [E|E].
    + cbn [find]. destruct (String.eqb_spec (id message) i) as [E'|E']; [congruence|].
      destruct (String.eqb_spec (id a) i) as [E''|E'']; [congruence|].
      clear IH. induction l as [|b l IH]; cbn; [reflexivity|].
      destruct (String.eqb_spec (id b) (id message)) as [Eb|Eb].
      * rewrite <- Eb in E'. apply String.eqb_neq in E'. rewrite E'.
        destruct (String.eqb_spec (id message) i); [congruence|]. exact IH.
      * destruct (id b =? i); [reflexivity|exact IH].
    + cbn [find]. destruct (id a =? i); [reflexivity|exact IH].
Qed.

Lemma or_null_twice (t : option Z) : or_null (or_null t) = or_null t.
Proof. destruct t as [[| |]|]; reflexivity. Qed.

Lemma durable_fields_message_of_row (r : Row) :
  durable_fields (message_of_row r) = row_fields r.
Proof. unfold durable_fields, row_fields. cbn. destruct (row_svgs r); reflexivity. Qed.

Lemma fields_ids (l : list ChatMessage) (t : Table) :
  map durable_fields l = map row_fields t -> ids l = map row_id t.
Proof.
  intro H. apply (f_equal (map (fun q => fst (fst (fst q))))) in H.
  rewrite !map_map in H. exact H.
Qed.

(** With distinct keys, a save rewrites in the table what it rewrites in
    memory. *)
Lemma saved_in_step (m : ChatMessage) (l : list ChatMessage) (t : Table) :
  NoDup (map row_id t) ->
  map durable_fields l = map row_fields t ->
  map durable_fields (saved m l) = map row_fields (sql_upsert (row_of_message m) t).
Proof.
  revert t. induction l as [|a l IH]; intros [|r t] K H; try discriminate H.
  - cbn. unfold durable_fields, row_fields. cbn. rewrite or_null_twice.
    destruct (svgs m); reflexivity.
  - cbn [map] in H.
    pose proof (f_equal (hd (durable_fields a)) H) as Ha.
    pose proof (f_equal (@tl _) H) as Hl. cbn [hd tl] in Ha, Hl. clear H.
    inversion K as [|? ? Kr Kt]; subst.
    assert (id a = row_id r) as Eid by (apply (f_equal (fun q => fst (fst (fst q)))) in Ha; exact Ha).
    rewrite saved_cons. cbn [sql_upsert row_of_message row_id]. rewrite Eid.
    destruct (String.eqb_spec (row_id r) (id m)) as [E|E].
    + rewrite replace_absent.
      * cbn [map]. rewrite Hl. f_equal.
        unfold durable_fields, row_fields. cbn. rewrite or_null_twice, E.
        destruct (svgs m); reflexivity.
      * rewrite (fields_ids l t Hl), <- E. exact Kr.
    + cbn [map]. rewrite Ha. f_equal. apply IH; assumption.
Qed.

(** X3.  When the table is in step with the list in memory and its keys are
    distinct, a save keeps them in step, and a load that follows rebuilds a
    list with the same ids in the same order, carrying the content, the
    timestamp (with 0 read as absent) and the attachments that memory holds;
    a load alone brings any table in step. *)
Theorem save_then_load_recovers_memory (message : ChatMessage) (s : Chat) :
  primary_key (storage s) -> in_step s ->
  let s' := exec (saveMessage message) s in
  in_step s'
  /\ in_step (exec onStart s')
  /\ map durable_fields (messages (exec onStart s')) = map durable_fields (messages s')
  /\ ids (messages (exec onStart s')) = ids (messages s')
  /\ in_step (exec onStart s).
Proof.
  intros K H. cbn zeta. unfold in_step in *.
  rewrite !exec_onStart, exec_saveMessage. cbn [messages storage].
  assert (forall t, map durable_fields (map message_of_row t) = map row_fields t) as L.
  { intro t. rewrite map_map. apply map_ext. apply durable_fields_message_of_row. }
  pose proof (saved_in_step message (messages s) (storage s) K H) as S.
  split; [exact S|]. split; [apply L|]. split; [rewrite L; symmetry; exact S|].
  split; [|apply L].
  rewrite ids_message_of_row. symmetry. apply fields_ids. exact S.
Qed.

Lemma save_then_load_recovers_memory_witness :
  let s := exec (saveMessage hello) empty_room in
  (primary_key (storage s) /\ in_step s)
  /\ messages (exec onStart (exec (saveMessage hello_by_bob) s))
     = [mkChat "m1" "edited" "Alice" RoleUser (Some 9%Z) None]
  /\ map durable_fields (messages (exec onStart (exec (saveMessage hello_by_bob) s)))
     = map durable_fields (messages (exec (saveMessage hello_by_bob) s)).
Proof.
  cbn zeta.
  assert (primary_key (storage (exec (saveMessage hello) empty_room))) as K.
  { unfold primary_key. cbn. constructor; [intros []|constructor]. }
  assert (in_step (exec (saveMessage hello) empty_room)) as H by reflexivity.
  split; [split; assumption|]. split; [reflexivity|].
  exact (proj1 (proj2 (proj2 (save_then_load_recovers_memory hello_by_bob
                                 (exec (saveMessage hello) empty_room) K H)))).
Defined.

Lemma replace_commute (m1 m2 : ChatMessage) (l : list ChatMessage) :
  id m1 <> id m2 ->
  map (fun x => if id x =? id m1 then m1 else x)
      (map (fun x => if id x =? id m2 then m2 else x) l)
  = map (fun x => if id x =? id m2 then m2 else x)
        (map (fun x => if id x =? id m1 then m1 else x) l).
Proof.
  intro N. rewrite !map_map. apply map_ext. intro a.
  assert ((id m1 =? id m2) = false) as N12 by (apply String.eqb_neq; exact N).
  assert ((id m2 =? id m1) = false) as N21 by (rewrite String.eqb_sym; exact N12).
  destruct (id a =? id m1) eqn:E1; destruct (id a =? id m2) eqn:E2;
    rewrite ?E1, ?E2, ?N12, ?N21, ?String.eqb_refl; try reflexivity.
  apply String.eqb_eq in E1, E2. congruence.
Qed.

Lemma sql_upsert_commute (r1 r2 : Row) (t : Table) :
  row_id r1 <> row_id r2 ->
  In (row_id r1) (map row_id t) -> In (row_id r2) (map row_id t) ->
  sql_upsert r1 (sql_upsert r2 t) = sql_upsert r2 (sql_upsert r1 t).
Proof.
  intro N. induction t as [|a t IH]; cbn [map]; [intros []|].
  intros H1 H2. cbn [sql_upsert].
  destruct (String.eqb_spec (row_id a) (row_id r1)) as [E1|E1];
    destruct (String.eqb_spec (row_id a) (row_id r2)) as [E2|E2].
  - congruence.
  - cbn [sql_upsert row_id]. apply String.eqb_neq in E2. rewrite E2.
    rewrite E1, String.eqb_refl. reflexivity.
  - cbn [sql_upsert row_id]. apply String.eqb_neq in E1. rewrite E1.
    rewrite E2, String.eqb_refl. reflexivity.
  - cbn [sql_upsert]. pose proof E1 as E1'. pose proof E2 as E2'.
    apply String.eqb_neq in E1', E2'. rewrite E1', E2'. f_equal.
    apply IH.
    + destruct H1 as [H1|H1]; [contradiction|exact H1].
    + destruct H2 as [H2|H2]; [contradiction|exact H2].
Qed.

(** X4.  Saves under two different ids that the room already holds commute:
    whichever arrives first, the list in memory and the table end the same.
    (For a new id the order of arrival fixes its place.) *)
Theorem saves_of_known_ids_commute (m1 m2 : ChatMessage) (s : Chat) :
  id m1 <> id m2 ->
  In (id m1) (ids (messages s)) -> In (id m2) (ids (messages s)) ->
  In (id m1) (map row_id (storage s)) -> In (id m2) (map row_id (storage s)) ->
  messages (exec (saveMessage m1) (exec (saveMessage m2) s))
  = messages (exec (saveMessage m2) (exec (saveMessage m1) s))
  /\ storage (exec (saveMessage m1) (exec (saveMessage m2) s))
     = storage (exec (saveMessage m2) (exec (saveMessage m1) s)).
Proof.
  intros N H1 H2 R1 R2. rewrite !exec_saveMessage. cbn [messages storage].
  split.
  - assert (forall m l, In (id m1) (ids l) -> In (id m1) (ids (saved m l))) as P1.
    { intros m l H. rewrite ids_saved. destruct (existsb _ _); [exact H|].
      apply in_or_app. left. exact H. }
    assert (forall m l, In (id m2) (ids l) -> In (id m2) (ids (saved m l))) as P2.
    { intros m l H. rewrite ids_saved. destruct (existsb _ _); [exact H|].
      apply in_or_app. left. exact H. }
    rewrite (saved_present m1 _ (P1 m2 _ H1)), (saved_present m2 _ (P2 m1 _ H2)).
    rewrite (saved_present m2 _ H2), (saved_present m1 _ H1).
    apply replace_commute. exact N.
  - apply (sql_upsert_commute (row_of_message m1) (row_of_message m2)); assumption.
Qed.

Lemma saves_of_known_ids_commute_witness :
  let other := mkChat "m2" "yo" "Carol" RoleUser None None in
  let s := exec (saveMessage other) (exec (saveMessage hello) empty_room) in
  messages (exec (saveMessage hello_by_bob)
              (exec (saveMessage (mkChat "m2" "yo!" "Carol" RoleUser None None)) s))
  = messages (exec (saveMessage (mkChat "m2" "yo!" "Carol" RoleUser None None))
                (exec (saveMessage hello_by_bob) s)).
Proof.
  cbn zeta.
  refine (proj1 (saves_of_known_ids_commute hello_by_bob
                   (mkChat "m2" "yo!" "Carol" RoleUser None None)
                   (exec (saveMessage (mkChat "m2" "yo" "Carol" RoleUser None None))
                      (exec (saveMessage hello) empty_room)) _ _ _ _ _)).
  - cbn. discriminate.
  - left. reflexivity.
  - right. left. reflexivity.
  - left. reflexivity.
  - right. left. reflexivity.
Defined.

(** X5.  A message that is no add and no update is still broadcast, and
    leaves the store alone: when the text does not parse the handler
    broadcasts it and then throws, when it parses as a snapshot the handler
    broadcasts it and returns, and every client that receives it replaces its
    whole list by the list of the message; neither the list in memory nor the
    table changes, and the broadcast is the only action. *)
Theorem onMessage_without_upsert
    (JSON_parse : string -> option Message) (c : Connection) (raw : string) (s : Chat) :
  (JSON_parse raw = None \/ exists l, JSON_parse raw = Some (All l)) ->
  let s' := exec (onMessage JSON_parse c raw) s in
  messages s' = messages s
  /\ storage s' = storage s
  /\ trace s' = trace s ++ [Broadcast raw]
  /\ (JSON_parse raw = None ->
      fst (onMessage JSON_parse c raw s) = Throw "SyntaxError")
  /\ (forall l, JSON_parse raw = Some (All l) ->
      fst (onMessage JSON_parse c raw s) = Normal tt
      /\ forall view, receive view (All l) = l).
Proof.
  intro H. cbn zeta. unfold exec, onMessage, bind, broadcast.
  destruct H as [H|[l H]]; rewrite H; cbn.
  - repeat split; try reflexivity; intros; discriminate.
  - repeat split; try reflexivity. intro C. discriminate C.
Qed.

Lemma onMessage_without_upsert_witness :
  let s := exec (saveMessage hello) empty_room in
  messages (exec (onMessage (fun _ => None) "c1" "not json") s) = [hello]
  /\ fst (onMessage (fun _ => None) "c1" "not json" s) = Throw "SyntaxError".
Proof.
  cbn zeta.
  destruct (onMessage_without_upsert (fun _ => None) "c1" "not json"
              (exec (saveMessage hello) empty_room) (or_introl eq_refl))
    as [M [_ [_ [T _]]]].
  split; [exact M|exact (T eq_refl)].
Defined.

(** ** The client against the store *)

Lemma echoed_add_shape (l : list ChatMessage) (p : ChatMessage) :
  In (id p) (ids l) ->
  exists i old,
    nth_error l i = Some old /\ id old = id p
    /\ receive l (Add p) = firstn i l ++ p :: skipn (S i) l
    /\ findIndex (fun m => id m =? id p) l = Some i.
Proof.
  intro H. destruct (findIndex_id (id p) l H) as [i Fi].
  destruct (findIndex_Some _ l i Fi) as [old [Hold [Eold _]]].
  apply String.eqb_eq in Eold. exists i, old.
  split; [exact Hold|]. split; [exact Eold|]. split; [|exact Fi].
  unfold receive, client_onMessage. rewrite Fi, eta_message.
  unfold slice_to, slice_from. rewrite Nat.add_1_r. reflexivity.
Qed.

Lemma receive_add_saved (l : list ChatMessage) (p : ChatMessage) :
  NoDup (ids l) -> receive l (Add p) = saved p l.
Proof.
  intro N. destruct (in_dec string_dec (id p) (ids l)) as [H|H].
  - destruct (echoed_add_shape l p H) as [i [old [Hold [Eold [R Fresh]]]]].
    rewrite R, (saved_present p l H).
    rewrite (split_at l i old Hold) at 3. rewrite map_app. cbn [map].
    rewrite Eold, String.eqb_refl.
    rewrite (split_at l i old Hold) in N. unfold ids in N. rewrite map_app in N.
    cbn [map] in N. apply NoDup_remove_2 in N. rewrite Eold in N.
    rewrite !replace_absent; [reflexivity| |]; intro C; apply N; apply in_or_app;
      [right|left]; exact C.
  - unfold receive, client_onMessage. rewrite (findIndex_None_id _ _ H), eta_message.
    rewrite (saved_absent p l H). reflexivity.
Qed.

Lemma appends_fold (ps : list ChatMessage) (s : Chat) :
  messages (exec (appends ps) s) = fold_left (fun l p => saved p l) ps (messages s).
Proof.
  revert s. induction ps as [|p ps IH]; intro s; [reflexivity|].
  cbn [appends fold_left]. unfold exec, bind in *. rewrite saveMessage_run.
  rewrite IH. reflexivity.
Qed.

(** X6.  A client that takes the snapshot of a room whose ids are distinct
    and then processes the adds the room stores, in the order the room stores
    them, holds after each of them the list the room holds in memory. *)
Theorem client_follows_store_on_adds
    (ps : list ChatMessage) (s : Chat) (view : list ChatMessage) :
  NoDup (ids (messages s)) ->
  fold_left receive (All (messages s) :: map Add ps) view
  = messages (exec (appends ps) s).
Proof.
  intro N. cbn [fold_left]. change (receive view (All (messages s))) with (messages s).
  rewrite appends_fold. generalize dependent (messages s). clear s view.
  induction ps as [|p ps IH]; intros l N; [reflexivity|].
  cbn [map fold_left]. rewrite (receive_add_saved l p N).
  apply IH. apply saved_NoDup. exact N.
Qed.

Lemma client_follows_store_on_adds_witness :
  NoDup (ids (messages empty_room))
  /\ fold_left receive [All []; Add hello; Add hello_by_bob] [hello_by_bob; hello]
     = [hello_by_bob].
Proof.
  assert (NoDup (ids (messages empty_room))) as N by constructor.
  split; [exact N|].
  exact (client_follows_store_on_adds [hello; hello_by_bob] empty_room
           [hello_by_bob; hello] N).
Defined.

(** X7.  An update for an id the room does not hold is stored by the room,
    at the end of its list, and dropped by a client that holds the room's
    list: the client's list stays as it was, one entry short of the room's.
    An update for an id the room holds (its ids being distinct) leaves
    client and room with the same list. *)
Theorem update_of_unknown_id_splits_client_from_store
    (JSON_parse : string -> option Message) (c : Connection) (raw : string)
    (p : ChatMessage) (s : Chat) :
  JSON_parse raw = Some (Update p) ->
  NoDup (ids (messages s)) ->
  let s' := exec (onMessage JSON_parse c raw) s in
  (~ In (id p) (ids (messages s)) ->
     messages s' = messages s ++ [p]
     /\ receive (messages s) (Update p) = messages s
     /\ List.length (messages s') = S (List.length (receive (messages s) (Update p))))
  /\ (In (id p) (ids (messages s)) ->
     receive (messages s) (Update p) = messages s').
Proof.
  intros P N. cbn zeta. unfold exec.
  rewrite (onMessage_upsert JSON_parse c raw p s (or_intror P)). cbn [snd messages].
  assert (receive (messages s) (Update p)
          = map (fun m => if id m =? id p then p else m) (messages s)) as R.
  { unfold receive, client_onMessage. rewrite eta_message. reflexivity. }
  split.
  - intro H. rewrite R, (replace_absent p _ H), (saved_absent p _ H).
    split; [reflexivity|]. split; [reflexivity|]. rewrite length_app. cbn. lia.
  - intro H. rewrite R, (saved_present p _ H). reflexivity.
Qed.

Lemma update_of_unknown_id_splits_client_from_store_witness :
  let s := exec (saveMessage hello) empty_room in
  let late := mkChat "m9" "late" "Bob" RoleUser None None in
  let s' := exec (onMessage (fun _ => Some (Update late)) "c1" "raw") s in
  messages s' = [hello; late] /\ receive (messages s) (Update late) = [hello].
Proof.
  cbn zeta.
  assert (NoDup (ids (messages (exec (saveMessage hello) empty_room)))) as N.
  { cbn. constructor; [intros []|constructor]. }
  destruct (update_of_unknown_id_splits_client_from_store
              (fun _ => Some (Update (mkChat "m9" "late" "Bob" RoleUser None None)))
              "c1" "raw" (mkChat "m9" "late" "Bob" RoleUser None None)
              (exec (saveMessage hello) empty_room) eq_refl N) as [U _].
  assert (~ In "m9" (ids (messages (exec (saveMessage hello) empty_room)))) as F.
  { cbn. intros [C|[]]. discriminate C. }
  destruct (U F) as [A [B _]]. split; [exact A|exact B].
Defined.

(** X8.  The handler looks the id up in the list of the render it was
    created in and rewrites the list of the moment.  When the list of the
    moment is the rendered list with later entries after it, an add for an id
    of the rendered list still replaces that entry in place; when the id is
    not in the rendered list the entry is appended whatever the list of the
    moment holds, so an id it already holds gets one more entry. *)
Theorem add_uses_the_rendered_index
    (rendered later current : list ChatMessage) (p : ChatMessage) :
  (In (id p) (ids rendered) ->
     client_onMessage rendered (Add p) (rendered ++ later)
     = receive rendered (Add p) ++ later)
  /\ (~ In (id p) (ids rendered) ->
     client_onMessage rendered (Add p) current = current ++ [p]
     /\ entries_with (id p) (client_onMessage rendered (Add p) current)
        = S (entries_with (id p) current)).
Proof.
  split.
  - intro H. destruct (echoed_add_shape rendered p H) as [i [old [Hold [_ [R Fi]]]]].
    rewrite R. unfold client_onMessage. rewrite Fi, eta_message.
    unfold slice_to, slice_from. rewrite Nat.add_1_r.
    assert (i < List.length rendered) as Lt.
    { apply nth_error_Some. rewrite Hold. discriminate. }
    rewrite firstn_app, skipn_app.
    replace (i - List.length rendered) with 0 by lia.
    replace (S i - List.length rendered) with 0 by lia.
    cbn [firstn skipn]. rewrite app_nil_r, <- app_assoc. reflexivity.
  - intro H. unfold client_onMessage.
    rewrite (findIndex_None_id _ _ H), eta_message. split; [reflexivity|].
    rewrite entries_with_app. unfold entries_with at 2. cbn.
    rewrite String.eqb_refl. cbn. lia.
Qed.

(** ** A message from the form to the room and back *)

(** X9.  A submit with text or with pending attachments, under an id the
    client's list does not hold: the client shows the message at once, at the
    end of its list, and empties its pending attachments and its message id;
    the room, on the text the client sent, broadcasts that very text and
    stores the message; and the client, on the broadcast, keeps one entry for
    the message, where it stood. *)
Theorem submit_store_echo
    (JSON_parse : string -> option Message) (JSON_stringify : Message -> string)
    (name contentValue nanoid8 : string) (now : Z) (a : AppState)
    (c : Connection) (s : Chat) :
  let mid := or_default (currentMessageId a) nanoid8 in
  let m := mkChat mid contentValue name RoleUser (Some now)
             (match pendingSvgs a with [] => None | _ => Some (pendingSvgs a) end) in
  let raw := JSON_stringify (Add m) in
  (trim contentValue <> EmptyString \/ pendingSvgs a <> []) ->
  JSON_parse raw = Some (Add m) ->
  ~ In mid (ids (view a)) ->
  onSubmit name contentValue now nanoid8 a
    = (mkApp (view a ++ [m]) [] None, Some (Add m))
  /\ trace (exec (onMessage JSON_parse c raw) s)
     = trace s ++ [Broadcast raw; MemoryWrite (saved m (messages s));
                   SqlUpsert (row_of_message m)]
  /\ messages (exec (onMessage JSON_parse c raw) s) = saved m (messages s)
  /\ In m (messages (exec (onMessage JSON_parse c raw) s))
  /\ receive (view a ++ [m]) (Add m) = view a ++ [m]
  /\ entries_with mid (receive (view a ++ [m]) (Add m)) = 1.
Proof.
  cbn zeta. set (m := mkChat _ _ _ _ _ _). intros G P F.
  assert (onSubmit name contentValue now nanoid8 a
          = (mkApp (view a ++ [m]) [] None, Some (Add m))) as S.
  { unfold onSubmit.
    assert (((trim contentValue =? EmptyString)
             && Nat.eqb (List.length (pendingSvgs a)) 0) = false) as E.
    { destruct G as [G|G].
      - apply String.eqb_neq in G. rewrite G. reflexivity.
      - destruct (pendingSvgs a); [contradiction|]. apply andb_false_r. }
    rewrite E. subst m. destruct (pendingSvgs a); reflexivity. }
  split; [exact S|].
  unfold exec. rewrite (onMessage_upsert JSON_parse c _ m s (or_introl P)).
  cbn [snd trace messages]. split; [reflexivity|]. split; [reflexivity|].
  split.
  { unfold saved. destruct (find (fun x => id x =? id m) (messages s)) as [x|] eqn:Fx.
    - apply find_some in Fx. destruct Fx as [Hx Ex].
      apply in_map_iff. exists x. split; [rewrite Ex; reflexivity|exact Hx].
    - apply in_or_app. right. left. reflexivity. }
  assert (In (id m) (ids (view a ++ [m]))) as Hin.
  { unfold ids. rewrite map_app. apply in_or_app. right. left. reflexivity. }
  destruct (echoed_add_shape (view a ++ [m]) m Hin) as [i [old [Hold [Eold [R Fi]]]]].
  assert (findIndex (fun x => id x =? id m) (view a ++ [m]) = Some (List.length (view a)))
    as Fl.
  { clear - F. subst m. cbn [id] in *. induction (view a) as [|b l IH]; cbn.
    - rewrite String.eqb_refl. reflexivity.
    - destruct (String.eqb_spec (id b) (or_default (currentMessageId a) nanoid8)) as [E|E].
      + exfalso. apply F. left. exact E.
      + rewrite IH; [reflexivity|]. intro C. apply F. right. exact C. }
  rewrite Fl in Fi. injection Fi as <-.
  assert (receive (view a ++ [m]) (Add m) = view a ++ [m]) as Rv.
  { rewrite R. rewrite firstn_app, firstn_all, Nat.sub_diag. cbn [firstn].
    rewrite app_nil_r, skipn_all2; [reflexivity|]. rewrite length_app. cbn. lia. }
  split; [exact Rv|]. rewrite Rv, entries_with_app, (entries_with_fresh _ _ F).
  unfold entries_with. cbn. rewrite String.eqb_refl. reflexivity.
Qed.

Lemma submit_store_echo_witness :
  let a := mkApp [hello] [] None in
  let m := mkChat "n8" "again" "Alice" RoleUser (Some 12%Z) None in
  (trim "again" <> EmptyString \/ pendingSvgs a <> [])
  /\ ~ In "n8" (ids (view a))
  /\ onSubmit "Alice" "again" 12 "n8" a = (mkApp [hello; m] [] None, Some (Add m))
  /\ receive [hello; m] (Add m) = [hello; m].
Proof.
  cbn zeta.
  assert (trim "again" <> EmptyString \/ pendingSvgs (mkApp [hello] [] None) <> []) as G.
  { left. cbn. discriminate. }
  assert (~ In "n8" (ids (view (mkApp [hello] [] None)))) as F.
  { cbn. intros [C|[]]. discriminate C. }
  split; [exact G|]. split; [exact F|].
  destruct (submit_store_echo
              (fun _ => Some (Add (mkChat "n8" "again" "Alice" RoleUser (Some 12%Z) None)))
              (fun _ => "wire") "Alice" "again" "n8" 12 (mkApp [hello] [] None)
              "c1" empty_room G eq_refl F) as [S [_ [_ [_ [R _]]]]].
  split; [exact S|exact R].
Defined.

(** ** More on the upload boundary and on retrieval *)

Lemma bucket_get_app (key : string) (l1 l2 : list (string * string)) :
  bucket_get key (l1 ++ l2)
  = match bucket_get key l1 with
    | Some v => Some v
    | None => bucket_get key l2
    end.
Proof.
  induction l1 as [|[k v] l1 IH]; cbn; [reflexivity|].
  destruct (k =? key); [reflexivity|exact IH].
Qed.



Lemma bucket_get_absent (key : string) (l : list (string * string)) :
  ~ In key (map fst l) -> bucket_get key l = None.
Proof.
  induction l as [|[k w] l IH]; cbn; [reflexivity|].
  intro N. destruct (String.eqb_spec k key) as [E|E].
  - exfalso. apply N. left. exact E.
  - apply IH. intro C. apply N. right. exact C.
Qed.

Lemma string_app_inv_head (a x y : string) : (a ++ x = a ++ y)%string -> x = y.
Proof.
  induction a as [|c a IH]; cbn; [trivial|].
  intro H. injection H as H. apply IH. exact H.
Qed.

Lemma storage_key_name_inj (r u m n n' : string) :
  storage_key r u m n = storage_key r u m n' -> n = n'.
Proof.
  unfold storage_key. intro H.
  repeat (apply string_app_inv_head in H). exact H.
Qed.

Lemma NoDup_map_injective {A B : Type} (f : A -> B) (l : list A) :
  (forall x y, f x = f y -> x = y) -> NoDup l -> NoDup (map f l).
Proof.
  intros Inj N. induction N as [|a l Ha Hl IH]; cbn; constructor; [|exact IH].
  intro C. apply in_map_iff in C. destruct C as [b [E Hb]]. apply Inj in E. subst b.
  exact (Ha Hb).
Qed.

Section UploadMore.

Arguments storage_key : simpl never.

Variable Number : string -> float.
Variable parseFloat : string -> float.
Variable Number_toString : float -> string.
Variable randomUUID : nat -> string.
Variable put_accepted : string -> bool.

Local Abbreviation loop :=
  (upload_loop Number parseFloat Number_toString randomUUID put_accepted).
Local Abbreviation upload :=
  (handleSvgUpload Number parseFloat Number_toString randomUUID put_accepted).
Local Abbreviation message_id := (message_id_of randomUUID).
Local Abbreviation normalize := (normalizeSvg Number parseFloat Number_toString).

(** The objects a run of the loop stores, oldest first, when it stores the
    files [stored]. *)
Local Abbreviation objects_of r u m stored :=
  (map (fun f => (storage_key r u m (file_name f), normalize (file_text f))) stored).

(** Whatever the loop answers, it has stored a prefix of the files it does
    not skip, newest first, before what the bucket held, and drawn one UUID
    for each; when it answers normally it has stored them all and describes
    them all. *)
Lemma upload_loop_stores (r u m : string) (files : list File)
    (acc : list SvgAttachment) (env : Env) :
  exists stored,
    SVG_BUCKET (snd (loop r u m files acc env))
    = rev (objects_of r u m stored) ++ SVG_BUCKET env
    /\ (exists rest, filter is_svg_file files = stored ++ rest)
    /\ uuids_drawn env <= uuids_drawn (snd (loop r u m files acc env))
    /\ forall res, fst (loop r u m files acc env) = Normal res ->
         stored = filter is_svg_file files
         /\ exists uploaded,
              res = acc ++ uploaded
              /\ map filename uploaded = map file_name stored
              /\ map url uploaded
                 = map (fun f => ("/api/svg/" ++ storage_key r u m (file_name f))%string) stored
              /\ map svg_id uploaded
                 = map randomUUID (seq (uuids_drawn env) (List.length stored)).
Proof.
  revert acc env. induction files as [|f files IH]; intros acc env.
  - exists []. cbn. split; [reflexivity|]. split; [exists []; reflexivity|].
    split; [lia|]. intros res H. injection H as <-. split; [reflexivity|].
    exists []. rewrite app_nil_r. repeat split; reflexivity.
  - cbn [upload_loop filter].
    assert (is_skipped f = negb (is_svg_file f)) as Sk
      by (unfold is_svg_file; rewrite negb_involutive; reflexivity).
    rewrite Sk. destruct (is_svg_file f) eqn:V; cbn [negb]; [|apply IH].
    + destruct (put_accepted (storage_key r u m (file_name f))) eqn:P.
      * destruct (IH (acc ++ [mkSvg (randomUUID (uuids_drawn env))
                                ("/api/svg/" ++ storage_key r u m (file_name f))
                                (file_name f)])
                     (mkEnv ((storage_key r u m (file_name f), normalize (file_text f))
                             :: SVG_BUCKET env) (S (uuids_drawn env))))
          as [stored [B [[rest Pre] [U N]]]].
        exists (f :: stored). cbn [SVG_BUCKET uuids_drawn] in *.
        split; [|split; [|split]].
        -- rewrite B. cbn [map rev]. rewrite <- app_assoc. reflexivity.
        -- exists rest. rewrite Pre. reflexivity.
        -- lia.
        -- intros res H. destruct (N res H) as [Es [up [Er [Fn [Ur Ui]]]]].
           split; [rewrite Es; reflexivity|].
           exists (mkSvg (randomUUID (uuids_drawn env))
                     ("/api/svg/" ++ storage_key r u m (file_name f)) (file_name f) :: up).
           split; [rewrite Er, <- app_assoc; reflexivity|].
           cbn [map List.length seq svg_id url filename].
           rewrite Fn, Ur, Ui. repeat split; reflexivity.
      * exists []. cbn. split; [reflexivity|]. split; [eexists; reflexivity|].
        split; [lia|]. intros res H. discriminate H.
Qed.

(** The state of the worker when the loop starts: a UUID is drawn for the
    message id when the form has none. *)
Local Abbreviation env_at_loop form env :=
  (match form_messageId form with
   | Some EmptyString | None => mkEnv (SVG_BUCKET env) (S (uuids_drawn env))
   | Some _ => env
   end).

Lemma handleSvgUpload_cases (request : Request) (env : Env) :
  upload request env =
  if negb (method request =? "POST") then
    (mkResponse 405 (BodyText "Method not allowed"), env)
  else
    match formData request with
    | None => (mkResponse 500 (BodyError "Upload failed"), env)
    | Some form =>
        if Nat.eqb (List.length (form_svgs form)) 0 then
          (mkResponse 400 (BodyError "No files uploaded"), env_at_loop form env)
        else
          match loop (sanitize (or_default (form_room form) "default"))
                     (sanitize (or_default (form_user form) "anonymous"))
                     (sanitize (message_id form env))
                     (form_svgs form) [] (env_at_loop form env) with
          | (Normal uploadedSvgs, env1) => (mkResponse 200 (BodySvgs uploadedSvgs), env1)
          | (Throw _, env1) => (mkResponse 500 (BodyError "Upload failed"), env1)
          end
    end.
Proof.
  unfold handleSvgUpload, message_id_of.
  destruct (negb (method request =? "POST")); [reflexivity|].
  destruct (formData request) as [form|]; [|reflexivity].
  destruct (form_messageId form) as [[|ch s]|]; reflexivity.
Qed.

(** What an upload leaves in the bucket, whatever it answers. *)
Lemma handleSvgUpload_bucket (request : Request) (env : Env) :
  (snd (upload request env) = env
   /\ forall uploaded, fst (upload request env) <> mkResponse 200 (BodySvgs uploaded))
  \/ exists form stored,
       formData request = Some form
       /\ method request = "POST"
       /\ SVG_BUCKET (snd (upload request env))
          = rev (objects_of (sanitize (or_default (form_room form) "default"))
                            (sanitize (or_default (form_user form) "anonymous"))
                            (sanitize (message_id form env)) stored)
            ++ SVG_BUCKET env
       /\ (exists rest, filter is_svg_file (form_svgs form) = stored ++ rest)
       /\ uuids_drawn env <= uuids_drawn (snd (upload request env))
       /\ forall uploaded,
            fst (upload request env) = mkResponse 200 (BodySvgs uploaded) ->
            stored = filter is_svg_file (form_svgs form)
            /\ map filename uploaded = map file_name stored
            /\ map url uploaded
               = map (fun f => ("/api/svg/"
                                ++ storage_key (sanitize (or_default (form_room form) "default"))
                                     (sanitize (or_default (form_user form) "anonymous"))
                                     (sanitize (message_id form env)) (file_name f))%string)
                     stored
            /\ map svg_id uploaded
               = map randomUUID (seq (uuids_drawn (env_at_loop form env))
                                     (List.length stored)).
Proof.
  rewrite handleSvgUpload_cases.
  destruct (String.eqb_spec (method request) "POST") as [M|M]; cbn [negb];
    [|left; split; [reflexivity|intros up C; discriminate C]].
  destruct (formData request) as [form|];
    [|left; split; [reflexivity|intros up C; discriminate C]].
  right. exists form.
  assert (SVG_BUCKET (env_at_loop form env) = SVG_BUCKET env
          /\ uuids_drawn env <= uuids_drawn (env_at_loop form env)) as [B0 U0].
  { destruct (form_messageId form) as [[|ch s]|]; cbn; split; try reflexivity; lia. }
  destruct (Nat.eqb (List.length (form_svgs form)) 0) eqn:Z.
  - exists []. cbn [snd fst]. split; [reflexivity|]. split; [exact M|].
    split; [exact B0|]. split; [eexists; reflexivity|]. split; [exact U0|].
    intros uploaded H. discriminate H.
  - destruct (upload_loop_stores (sanitize (or_default (form_room form) "default"))
                (sanitize (or_default (form_user form) "anonymous"))
                (sanitize (message_id form env)) (form_svgs form) [] (env_at_loop form env))
      as [stored [B [Pre [U N]]]].
    exists stored. split; [reflexivity|]. split; [exact M|].
    destruct (loop _ _ _ _ _ _) as [[up|e] env1]; cbn [fst snd] in *.
    + split; [rewrite B, B0; reflexivity|]. split; [exact Pre|]. split; [lia|].
      intros uploaded H. injection H as <-.
      destruct (N up eq_refl) as [Es [up' [Er [Fn [Ur Ui]]]]]. cbn in Er. subst up'.
      repeat split; assumption.
    + split; [rewrite B, B0; reflexivity|]. split; [exact Pre|]. split; [lia|].
      intros uploaded H. discriminate H.
Qed.

Lemma upload_accepted (request : Request) (form : FormData) (env : Env) :
  method request = "POST" -> formData request = Some form -> form_svgs form <> [] ->
  (forall key, put_accepted key = true) ->
  exists uploaded, fst (upload request env) = mkResponse 200 (BodySvgs uploaded).
Proof.
  intros M F Hf Acc. rewrite handleSvgUpload_cases, M, F. cbn [String.eqb negb].
  change ("POST" =? "POST") with true. cbn [negb].
  destruct (form_svgs form) as [|f fs] eqn:Fs; [contradiction|]. cbn [List.length Nat.eqb].
  destruct (upload_loop_accepted Number parseFloat Number_toString randomUUID put_accepted
              (sanitize (or_default (form_room form) "default"))
              (sanitize (or_default (form_user form) "anonymous"))
              (sanitize (message_id form env)) (f :: fs) [] (env_at_loop form env) Acc)
    as [up [L _]].
  destruct (loop _ _ _ _ _ _) as [[up'|e] env1]; cbn in L; [|discriminate L].
  exists up'. reflexivity.
Qed.

Variable decodeURIComponent : string -> option string.

(** X10.  An upload only adds to the bucket.  Whatever the request and
    whatever the answer, every key that could be retrieved before can be
    retrieved after, a key that is not the key of a file of the submission
    yields what it did before, and no UUID is given back; a request that is
    no POST and a body that does not parse leave the worker as it was, with
    status 405 and 500. *)
Theorem upload_only_adds (request : Request) (env : Env) (key : string) :
  let response := fst (upload request env) in
  let env' := snd (upload request env) in
  (exists added, SVG_BUCKET env' = added ++ SVG_BUCKET env)
  /\ (forall v, bucket_get key (SVG_BUCKET env) = Some v ->
        exists w, bucket_get key (SVG_BUCKET env') = Some w)
  /\ ((forall form file, formData request = Some form -> In file (form_svgs form) ->
         is_svg_file file = true ->
         key <> storage_key (sanitize (or_default (form_room form) "default"))
                  (sanitize (or_default (form_user form) "anonymous"))
                  (sanitize (message_id form env)) (file_name file)) ->
      bucket_get key (SVG_BUCKET env') = bucket_get key (SVG_BUCKET env))
  /\ uuids_drawn env <= uuids_drawn env'
  /\ (method request <> "POST" ->
      response = mkResponse 405 (BodyText "Method not allowed") /\ env' = env)
  /\ (method request = "POST" -> formData request = None ->
      response = mkResponse 500 (BodyError "Upload failed") /\ env' = env).
Proof.
  cbn zeta.
  assert ((method request <> "POST" ->
           fst (upload request env) = mkResponse 405 (BodyText "Method not allowed")
           /\ snd (upload request env) = env)
          /\ (method request = "POST" -> formData request = None ->
              fst (upload request env) = mkResponse 500 (BodyError "Upload failed")
              /\ snd (upload request env) = env)) as [E405 E500].
  { rewrite handleSvgUpload_cases. split.
    - intro M. apply String.eqb_neq in M. rewrite M. split; reflexivity.
    - intros M F. rewrite M, F. split; reflexivity. }
  assert ((exists added, SVG_BUCKET (snd (upload request env)) = added ++ SVG_BUCKET env)
          /\ (forall v, bucket_get key (SVG_BUCKET env) = Some v ->
                exists w, bucket_get key (SVG_BUCKET (snd (upload request env))) = Some w)
          /\ ((forall form file, formData request = Some form -> In file (form_svgs form) ->
                 is_svg_file file = true ->
                 key <> storage_key (sanitize (or_default (form_room form) "default"))
                          (sanitize (or_default (form_user form) "anonymous"))
                          (sanitize (message_id form env)) (file_name file)) ->
              bucket_get key (SVG_BUCKET (snd (upload request env)))
              = bucket_get key (SVG_BUCKET env))
          /\ uuids_drawn env <= uuids_drawn (snd (upload request env))) as Main.
  { destruct (handleSvgUpload_bucket request env)
      as [[E _]|[form [stored [F [M [B [[rest Pre] [U _]]]]]]]].
    - rewrite E. split; [exists []; reflexivity|]. split; [intros v H; exists v; exact H|].
      split; [reflexivity|lia].
    - rewrite B. split; [eexists; reflexivity|]. split; [|split; [|exact U]].
      + intros v H. rewrite bucket_get_app.
        destruct (bucket_get key (rev _)); eexists; [reflexivity|exact H].
      + intro N. rewrite bucket_get_app, bucket_get_absent; [reflexivity|].
        intro C. apply in_map_iff in C. destruct C as [[k v] [Ek Hk]]. cbn in Ek. subst k.
        apply in_rev, in_map_iff in Hk. destruct Hk as [f [Ef Hf]].
        pose proof (f_equal fst Ef) as Ek. cbn [fst] in Ek.
        assert (In f (filter is_svg_file (form_svgs form))) as Hv.
        { rewrite Pre. apply in_or_app. left. exact Hf. }
        apply filter_In in Hv. destruct Hv as [Hin V].
        apply (N form f F Hin V). symmetry. exact Ek. }
  destruct Main as [A [G [Fr U]]]. repeat split; try assumption.
  - apply E405; assumption.
  - apply E405; assumption.
  - apply E500; assumption.
  - apply E500; assumption.
Qed.


(** X12.  When [randomUUID] never repeats a value, the ids of the
    attachments of a successful answer are pairwise distinct, and none of
    them is the message id the worker generated for a form without one. *)
Theorem attachment_ids_distinct
    (request : Request) (env : Env) (uploaded : list SvgAttachment) :
  (forall i j, randomUUID i = randomUUID j -> i = j) ->
  fst (upload request env) = mkResponse 200 (BodySvgs uploaded) ->
  NoDup (map svg_id uploaded)
  /\ List.length uploaded
     = List.length (match formData request with
                    | Some form => filter is_svg_file (form_svgs form)
                    | None => []
                    end)
  /\ forall form,
       formData request = Some form ->
       form_messageId form = None \/ form_messageId form = Some EmptyString ->
       message_id form env = randomUUID (uuids_drawn env)
       /\ ~ In (message_id form env) (map svg_id uploaded).
Proof.
  intros Inj R.
  destruct (handleSvgUpload_bucket request env)
    as [[_ C]|[form [stored [F [M [B [_ [_ N]]]]]]]]; [exfalso; exact (C uploaded R)|].
  destruct (N uploaded R) as [Es [Fn [_ Ui]]]. rewrite F.
  split; [|split].
  - rewrite Ui. apply NoDup_map_injective; [exact Inj|apply seq_NoDup].
  - rewrite <- Es, <- (length_map filename), Fn, length_map. reflexivity.
  - intros form' F' Absent. injection F' as <-.
    assert (message_id form env = randomUUID (uuids_drawn env)
            /\ uuids_drawn (env_at_loop form env) = S (uuids_drawn env)) as [Em Eu].
    { unfold message_id_of. destruct Absent as [A|A]; rewrite A; split; reflexivity. }
    split; [exact Em|]. rewrite Em, Ui, Eu. intro H. apply in_map_iff in H.
    destruct H as [k [Ek Hk]]. apply Inj in Ek. apply in_seq in Hk. lia.
Qed.

End UploadMore.

Lemma tally_uuid_inj (i j : nat) : tally_uuid i = tally_uuid j -> i = j.
Proof.
  revert j. induction i as [|i IH]; intros [|j] H; cbn in H.
  - reflexivity.
  - injection H as H. destruct j; discriminate H.
  - injection H as H. destruct i; discriminate H.
  - injection H as H. f_equal. apply IH. exact H.
Qed.


Lemma attachment_ids_distinct_witness :
  let request := mkRequest "POST"
                   (Some (mkForm [svg_file "a.svg"; svg_file "b.svg"] None None None)) in
  let result := handleSvgUpload sample_Number sample_Number sample_toString tally_uuid
                  accept_all request fresh_env in
  (forall i j, tally_uuid i = tally_uuid j -> i = j)
  /\ fst result
     = mkResponse 200
         (BodySvgs [mkSvg "uu" "/api/svg/svgs/default/anonymous/u/a.svg" "a.svg";
                    mkSvg "uuu" "/api/svg/svgs/default/anonymous/u/b.svg" "b.svg"])
  /\ NoDup ["uu"; "uuu"].
Proof.
  cbn zeta. split; [exact tally_uuid_inj|].
  assert (fst (handleSvgUpload sample_Number sample_Number sample_toString tally_uuid
                 accept_all
                 (mkRequest "POST"
                    (Some (mkForm [svg_file "a.svg"; svg_file "b.svg"] None None None)))
                 fresh_env)
          = mkResponse 200
              (BodySvgs [mkSvg "uu" "/api/svg/svgs/default/anonymous/u/a.svg" "a.svg";
                         mkSvg "uuu" "/api/svg/svgs/default/anonymous/u/b.svg" "b.svg"])) as R
    by (vm_compute; reflexivity).
  split; [exact R|].
  exact (proj1 (attachment_ids_distinct sample_Number sample_Number sample_toString
                  tally_uuid accept_all _ _ _ tally_uuid_inj R)).
Defined.

(** ** Sanitised names and the keys built from them *)

Lemma sanitize_fixed (s : string) :
  string_forallb is_safe_char s = true -> sanitize s = s.
Proof.
  induction s as [|c s IH]; cbn; [reflexivity|].
  intro H. apply andb_true_iff in H. destruct H as [Hc Hs].
  rewrite Hc, (IH Hs). reflexivity.
Qed.

Lemma or_default_nonempty (field : option string) (fallback : string) :
  fallback <> EmptyString -> or_default field fallback <> EmptyString.
Proof. intro H. destruct field as [[|c s]|]; cbn; [exact H|discriminate|exact H]. Qed.

Lemma or_default_Some (x fallback : string) :
  x <> EmptyString -> or_default (Some x) fallback = x.
Proof. intro H. destruct x; [contradiction|reflexivity]. Qed.

(** X13.  Sanitising keeps the length of a name, leaves a name of letters,
    digits, underscores and hyphens as it is (and only such a name), and
    sanitising twice is sanitising once; with its fallback, a sanitised field
    is never empty. *)
Theorem sanitize_is_stable (s : string) (field : option string) (fallback : string) :
  String.length (sanitize s) = String.length s
  /\ sanitize (sanitize s) = sanitize s
  /\ (sanitize s = s <-> string_forallb is_safe_char s = true)
  /\ (fallback <> EmptyString -> sanitize (or_default field fallback) <> EmptyString).
Proof.
  split; [|split; [|split]].
  - induction s as [|c s IH]; cbn; [reflexivity|]. rewrite IH. reflexivity.
  - apply sanitize_fixed, sanitize_safe.
  - split; [intro H; rewrite <- H; apply sanitize_safe|apply sanitize_fixed].
  - intro H. pose proof (or_default_nonempty field fallback H) as N.
    destruct (or_default field fallback); [contradiction|]. cbn. discriminate.
Qed.

(** X14.  Keys do not cross namespaces: two keys built from sanitised room,
    user and message id are equal only when the three sanitised fields and
    the file names are equal. *)
Theorem storage_keys_do_not_cross (room user messageId name room' user' messageId' name' : string) :
  storage_key (sanitize room) (sanitize user) (sanitize messageId) name
  = storage_key (sanitize room') (sanitize user') (sanitize messageId') name' ->
  sanitize room = sanitize room' /\ sanitize user = sanitize user'
  /\ sanitize messageId = sanitize messageId' /\ name = name'.
Proof.
  intro H. pose proof (f_equal segments H) as S.
  rewrite !storage_key_segments in S by apply sanitize_safe.
  injection S as Er Eu Em _. rewrite Er, Eu, Em in H.
  apply storage_key_name_inj in H. repeat split; assumption.
Qed.

Lemma storage_keys_do_not_cross_witness :
  storage_key (sanitize "lobby") (sanitize "Al ice") (sanitize "m1") "a.svg"
  = storage_key (sanitize "lobby") (sanitize "Al_ice") (sanitize "m1") "a.svg"
  /\ sanitize "Al ice" = sanitize "Al_ice".
Proof.
  assert (storage_key (sanitize "lobby") (sanitize "Al ice") (sanitize "m1") "a.svg"
          = storage_key (sanitize "lobby") (sanitize "Al_ice") (sanitize "m1") "a.svg") as H
    by reflexivity.
  split; [exact H|].
  exact (proj1 (proj2 (storage_keys_do_not_cross _ _ _ _ _ _ _ _ H))).
Defined.

(** ** From picked files to the attachments of a message *)

Lemma client_accepts_is_svg_file (file : File) : client_accepts file = is_svg_file file.
Proof.
  unfold client_accepts, is_svg_file, is_skipped.
  destruct (file_type file =? "image/svg+xml"), (endsWith ".svg" (file_name file)); reflexivity.
Qed.

Lemma filter_client_accepts (files : list File) :
  filter is_svg_file (filter client_accepts files) = filter client_accepts files.
Proof.
  induction files as [|f files IH]; cbn; [reflexivity|].
  destruct (client_accepts f) eqn:A; [|exact IH].
  cbn. rewrite <- client_accepts_is_svg_file, A, IH. reflexivity.
Qed.

Section Chain.

Arguments storage_key : simpl never.

Variable Number : string -> float.
Variable parseFloat : string -> float.
Variable Number_toString : float -> string.
Variable randomUUID : nat -> string.
Variable put_accepted : string -> bool.

Local Abbreviation upload :=
  (handleSvgUpload Number parseFloat Number_toString randomUUID put_accepted).

(** X15.  Files picked in the client become the attachments of the next
    message.  When at least one picked file is an SVG (by type or by name)
    and the bucket accepts every put, the worker answers the client's request
    with status 200 and one descriptor per SVG file picked, in the order
    picked, skipping none of the files the client sent; the client appends
    them to its pending attachments and keeps the message id it sent; every
    URL lies under the sanitised room, user and that message id; and the next
    submit sends a message of that id carrying all pending attachments. *)
Theorem picked_files_become_attachments
    (room : option string) (name nanoid8 : string) (files : list File)
    (a : AppState) (env : Env) :
  nanoid8 <> EmptyString ->
  filter client_accepts files <> [] ->
  (forall key, put_accepted key = true) ->
  let mid := or_default (currentMessageId a) nanoid8 in
  exists request uploaded env',
    handleFileSelect room name files nanoid8 a
    = Some (mkApp (view a) (pendingSvgs a) (Some mid), request)
    /\ upload request env = (mkResponse 200 (BodySvgs uploaded), env')
    /\ map filename uploaded = map file_name (filter client_accepts files)
    /\ upload_settled (mkResponse 200 (BodySvgs uploaded))
         (mkApp (view a) (pendingSvgs a) (Some mid))
       = mkApp (view a) (pendingSvgs a ++ uploaded) (Some mid)
    /\ (forall d, In d uploaded ->
          url d = ("/api/svg/"
                   ++ storage_key (sanitize (or_default room "default"))
                        (sanitize (or_default (Some name) "anonymous"))
                        (sanitize mid) (filename d))%string)
    /\ forall contentValue now nanoid8',
         onSubmit name contentValue now nanoid8'
           (mkApp (view a) (pendingSvgs a ++ uploaded) (Some mid))
         = (let m := mkChat mid contentValue name RoleUser (Some now)
                       (Some (pendingSvgs a ++ uploaded)) in
            (mkApp (view a ++ [m]) [] None, Some (Add m))).
Proof.
  intros Hn Hf Acc. cbn zeta.
  set (mid := or_default (currentMessageId a) nanoid8).
  assert (mid <> EmptyString) as Hmid by (apply or_default_nonempty; exact Hn).
  set (request := upload_request room name (filter client_accepts files) mid).
  assert (handleFileSelect room name files nanoid8 a
          = Some (mkApp (view a) (pendingSvgs a) (Some mid), request)) as Hs.
  { unfold handleFileSelect. destruct files as [|f fs]; [contradiction Hf; reflexivity|].
    reflexivity. }
  assert (formData request
          = Some (mkForm (filter client_accepts files) (Some (or_default room "default"))
                    (Some name) (Some mid))) as F by reflexivity.
  assert (form_svgs (mkForm (filter client_accepts files) (Some (or_default room "default"))
                       (Some name) (Some mid)) <> []) as Hne by exact Hf.
  destruct (upload_accepted Number parseFloat Number_toString randomUUID put_accepted
              request _ env eq_refl F Hne Acc) as [uploaded R].
  destruct (handleSvgUpload_bucket Number parseFloat Number_toString randomUUID put_accepted
              request env) as [[_ C]|[form [stored [F' [M [B [_ [_ N]]]]]]]];
    [exfalso; exact (C uploaded R)|].
  rewrite F in F'. injection F' as <-.
  destruct (N uploaded R) as [Es [Fn [Ur _]]].
  cbn [form_svgs form_room form_user] in Es, Fn, Ur.
  rewrite filter_client_accepts in Es. subst stored.
  assert (message_id_of randomUUID
            (mkForm (filter client_accepts files) (Some (or_default room "default"))
               (Some name) (Some mid)) env = mid) as Em.
  { unfold message_id_of. cbn [form_messageId]. destruct mid; [contradiction|reflexivity]. }
  rewrite Em in Ur.
  rewrite (or_default_Some (or_default room "default") "default") in Ur
    by (apply or_default_nonempty; discriminate).
  exists request, uploaded, (snd (upload request env)).
  split; [exact Hs|]. split; [rewrite <- R; apply surjective_pairing|].
  split; [exact Fn|]. split; [reflexivity|]. split.
  - intros d Hd.
    assert (map (fun x => (filename x, url x)) uploaded
            = map (fun f => (file_name f,
                             ("/api/svg/"
                              ++ storage_key (sanitize (or_default room "default"))
                                   (sanitize (or_default (Some name) "anonymous"))
                                   (sanitize mid) (file_name f))%string))
                  (filter client_accepts files)) as Ep.
    { clear - Fn Ur. revert Fn Ur. generalize (filter client_accepts files) as st.
      induction uploaded as [|x up IH]; intros [|f st] Fn Ur; try discriminate; [reflexivity|].
      cbn [map] in *.
      pose proof (f_equal (hd EmptyString) Fn) as Fx. pose proof (f_equal (@tl _) Fn) as Ft.
      pose proof (f_equal (hd EmptyString) Ur) as Ux. pose proof (f_equal (@tl _) Ur) as Ut.
      cbn [hd tl] in Fx, Ft, Ux, Ut. rewrite Fx, Ux, (IH st Ft Ut). reflexivity. }
    apply (in_map (fun x => (filename x, url x))) in Hd. rewrite Ep in Hd.
    apply in_map_iff in Hd. destruct Hd as [f [E _]].
    pose proof (f_equal fst E) as E1. pose proof (f_equal snd E) as E2.
    cbn [fst snd] in E1, E2. rewrite <- E2, E1. reflexivity.
  - intros contentValue now nanoid8'. unfold onSubmit. cbn [pendingSvgs currentMessageId view].
    assert (uploaded <> []) as Hu.
    { intro E. rewrite E in Fn. cbn in Fn.
      destruct (filter client_accepts files); [contradiction|discriminate Fn]. }
    assert (List.length (pendingSvgs a ++ uploaded) <> 0) as Hl.
    { rewrite length_app. destruct uploaded; [contradiction|]. cbn. lia. }
    destruct (List.length (pendingSvgs a ++ uploaded)) as [|k] eqn:El; [contradiction|].
    cbn [Nat.eqb Nat.ltb Nat.leb]. rewrite andb_false_r.
    rewrite (or_default_Some mid nanoid8' Hmid). reflexivity.
Qed.

End Chain.

(** ** The text of normalised documents *)

Lemma string_forallb_app (p : ascii -> bool) (a b : string) :
  string_forallb p (a ++ b) = string_forallb p a && string_forallb p b.
Proof.
  induction a as [|c a IH]; cbn; [reflexivity|]. rewrite IH, andb_assoc. reflexivity.
Qed.

Lemma append_empty_r (a : string) : (a ++ EmptyString)%string = a.
Proof. induction a as [|c a IH]; cbn; [reflexivity|rewrite IH; reflexivity]. Qed.

Lemma span_app (p : ascii -> bool) (a b : string) :
  string_forallb p a = true ->
  span p (a ++ b) = ((a ++ fst (span p b))%string, snd (span p b)).
Proof.
  induction a as [|c a IH]; cbn.
  - intros _. destruct (span p b); reflexivity.
  - intro H. apply andb_true_iff in H. destruct H as [Hc Ha].
    rewrite Hc, (IH Ha). reflexivity.
Qed.

Lemma after_prefix_app (p s : string) : after_prefix p (p ++ s) = Some s.
Proof.
  induction p as [|c p IH]; cbn; [reflexivity|]. rewrite Ascii.eqb_refl. exact IH.
Qed.

(** A tag at the start of a text: the literal, attributes without [>], [>]. *)
Lemma tag_here_app (lit attrs rest : string) :
  string_forallb not_gt attrs = true ->
  tag_here lit (lit ++ attrs ++ String ">" rest) = Some (attrs, rest).
Proof.
  intro H. unfold tag_here. rewrite after_prefix_app.
  change (fun c => negb (c =? ">")%char) with not_gt.
  rewrite (span_app not_gt attrs (String ">" rest) H). cbn.
  rewrite append_empty_r. reflexivity.
Qed.

Lemma replace_tag_here (lit : string) (f : string -> string) (s attrs rest : string) :
  tag_here lit s = Some (attrs, rest) -> replace_tag lit f s = (f attrs ++ rest)%string.
Proof. intro H. destruct s; cbn [replace_tag]; rewrite H; reflexivity. Qed.

Lemma clash_after_prefix (pat s z : string) :
  clash pat s = true -> after_prefix pat (s ++ z) = None.
Proof.
  revert s. induction pat as [|a p IH]; intros [|b s]; cbn; try discriminate.
  destruct (a =? b)%char; cbn; [apply IH|reflexivity].
Qed.

(** Searches pass over a text inside which no occurrence can start. *)
Lemma never_starts_skips (pat x z : string) :
  never_starts pat x = true ->
  includes pat (x ++ z) = includes pat z
  /\ (forall rep, replace_first pat rep (x ++ z) = (x ++ replace_first pat rep z)%string)
  /\ (forall f, replace_tag pat f (x ++ z) = (x ++ replace_tag pat f z)%string).
Proof.
  induction x as [|c x IH]; cbn [never_starts append].
  - intros _. repeat split.
  - intro H. apply andb_true_iff in H. destruct H as [Hc Hx].
    destruct (IH Hx) as [I [R T]].
    pose proof (clash_after_prefix pat (String c x) z Hc) as A. cbn [append] in A.
    split; [|split].
    + cbn [includes]. rewrite A. exact I.
    + intro rep. cbn [replace_first]. rewrite A, R. reflexivity.
    + intro f. cbn [replace_tag]. unfold tag_here. rewrite A. fold (tag_here pat).
      rewrite T. reflexivity.
Qed.

Lemma no_lt_never_starts (p x : string) :
  string_forallb not_lt x = true -> never_starts (String "<" p) x = true.
Proof.
  induction x as [|c x IH]; cbn [string_forallb never_starts clash]; [reflexivity|].
  intro H. apply andb_true_iff in H. destruct H as [Hc Hx].
  rewrite (IH Hx), andb_true_r. unfold not_lt in Hc.
  rewrite (Ascii.eqb_sym "<" c), Hc. reflexivity.
Qed.

Lemma suffixes_miss_after_prefix (pat x z : string) :
  x <> EmptyString ->
  after_prefix pat x = None -> suffixes_miss pat z = true ->
  after_prefix pat (x ++ z) = None.
Proof.
  revert x. induction pat as [|a p IH]; intros [|b x] Hx; try contradiction;
    cbn [after_prefix append]; [discriminate|].
  destruct (a =? b)%char; [|reflexivity].
  intros H M. cbn [suffixes_miss] in M.
  destruct p as [|a' p']; [discriminate H|].
  apply andb_true_iff in M. destruct M as [M1 M2].
  destruct x as [|b' x'].
  - cbn [append]. destruct (after_prefix (String a' p') z); [discriminate M1|reflexivity].
  - apply IH; [discriminate|exact H|exact M2].
Qed.

(** Searches pass over a text that holds no occurrence, before a text that
    no end of the pattern starts. *)
Lemma no_occurrence_skips (pat x z : string) :
  includes pat x = false -> suffixes_miss pat z = true ->
  includes pat (x ++ z) = includes pat z
  /\ (forall rep, replace_first pat rep (x ++ z) = (x ++ replace_first pat rep z)%string).
Proof.
  intros H M. induction x as [|c x IH]; cbn [append]; [repeat split|].
  cbn [includes] in H.
  destruct (after_prefix pat (String c x)) eqn:A; [discriminate H|].
  destruct (IH H) as [I R].
  pose proof (suffixes_miss_after_prefix pat (String c x) z ltac:(discriminate) A M) as A'.
  cbn [append] in A'. split.
  - cbn [includes]. rewrite A'. exact I.
  - intro rep. cbn [replace_first]. rewrite A', R. reflexivity.
Qed.

Lemma clash_app (pat s z : string) : clash pat s = true -> clash pat (s ++ z) = true.
Proof.
  revert s. induction pat as [|a p IH]; intros [|b s]; cbn [clash append]; try discriminate.
  destruct (negb (a =? b)%char); cbn [orb]; [reflexivity|apply IH].
Qed.

Lemma never_starts_app (pat a b : string) :
  never_starts pat a = true -> never_starts pat b = true ->
  never_starts pat (a ++ b) = true.
Proof.
  intros Ha Hb. induction a as [|c a IH]; cbn [append]; [exact Hb|].
  cbn [never_starts] in Ha |- *. apply andb_true_iff in Ha. destruct Ha as [Hc Ha].
  rewrite (IH Ha), andb_true_r.
  exact (clash_app pat (String c a) b Hc).
Qed.

Section NormalisedText.

Local Open Scope float_scope.

Variable Number : string -> float.
Variable parseFloat : string -> float.
Variable Number_toString : float -> string.
Variable toFixed : nat -> float -> string.

Hypothesis text_of_300 : Number_toString targetSize = "300"%string.

Local Abbreviation group_tag c := ("<g " ++ normalizeTransform Number_toString c ++ ">")%string.

(** The rewriting of a document that starts with its root tag. *)
Lemma rewriteSvg_rooted (attrs rest : string) (c : Centering) :
  string_forallb not_gt attrs = true ->
  rewriteSvg Number_toString ("<svg" ++ attrs ++ String ">" rest) c
  = if negb (includes "<g" rest)
    then replace_first "</svg>" "</g></svg>" (canonical_root ++ group_tag c ++ rest)
    else (canonical_root
          ++ replace_tag "<g"
               (fun a => ("<g" ++ a ++ " " ++ normalizeTransform Number_toString c ++ ">")%string)
               rest)%string.
Proof.
  intro H. unfold rewriteSvg. rewrite text_of_300.
  rewrite (replace_tag_here "<svg" _ _ attrs rest (tag_here_app "<svg" attrs rest H)).
  change ("<svg viewBox=" ++ DQ ++ "0 0 " ++ "300" ++ " " ++ "300" ++ DQ ++ " xmlns=" ++ DQ
          ++ "http://www.w3.org/2000/svg" ++ DQ ++ ">")%string with canonical_root.
  destruct (never_starts_skips "<g" canonical_root rest eq_refl) as [I [_ T]].
  rewrite I. destruct (includes "<g" rest); cbn [negb].
  - apply T.
  - f_equal.
Qed.

Lemma transform_never_starts (pat : string) (c : Centering) :
  (forall x, string_forallb not_lt (Number_toString x) = true) ->
  never_starts (String "<" (String "/" pat)) (group_tag c) = true.
Proof.
  intro NoLt. unfold normalizeTransform. rewrite !append_assoc.
  repeat (apply never_starts_app;
          [first [reflexivity | apply no_lt_never_starts; apply NoLt]|]).
  reflexivity.
Qed.

(** X16.  A document that starts with its root tag, holds no group, and
    closes its root once, after its content: [normalizeSvg] puts the
    canonical root tag in place of the root tag, whatever attributes that one
    had, opens one group carrying the transform right after it, keeps the
    content as it is, and closes the group before the closing root tag; what
    follows the closing tag is kept. *)
Theorem normalize_wraps_content_in_group (attrs inner tail : string) :
  (forall x, string_forallb not_lt (Number_toString x) = true) ->
  string_forallb not_gt attrs = true ->
  includes "<g" inner = false -> includes "</svg>" inner = false ->
  includes "<g" tail = false ->
  let svgContent := ("<svg" ++ attrs ++ ">" ++ inner ++ "</svg>" ++ tail)%string in
  let c := normalizeCentering (resolveBounds Number parseFloat svgContent) in
  normalizeSvg Number parseFloat Number_toString svgContent
  = (canonical_root ++ group_tag c ++ inner ++ "</g></svg>" ++ tail)%string.
Proof.
  intros NoLt Ha Hg Hc Ht. cbn zeta. unfold normalizeSvg.
  change ("<svg" ++ attrs ++ ">" ++ inner ++ "</svg>" ++ tail)%string
    with ("<svg" ++ attrs ++ String ">" (inner ++ "</svg>" ++ tail))%string.
  set (c := normalizeCentering _).
  rewrite (rewriteSvg_rooted attrs _ c Ha).
  destruct (no_occurrence_skips "<g" inner ("</svg>" ++ tail) Hg eq_refl) as [I _].
  rewrite I. change (includes "<g" ("</svg>" ++ tail)) with (includes "<g" tail).
  rewrite Ht. cbn [negb].
  destruct (never_starts_skips "</svg>" canonical_root
              (group_tag c ++ inner ++ "</svg>" ++ tail) eq_refl) as [_ [R1 _]].
  rewrite R1.
  destruct (never_starts_skips "</svg>" (group_tag c) (inner ++ "</svg>" ++ tail)
              (transform_never_starts "svg>" c NoLt)) as [_ [R2 _]].
  rewrite R2.
  destruct (no_occurrence_skips "</svg>" inner ("</svg>" ++ tail) Hc eq_refl) as [_ R3].
  rewrite R3. cbn [replace_first after_prefix].
  unfold normalizeTransform. rewrite !append_assoc. reflexivity.
Qed.

(** The transform attribute [generateSvgBlob] writes. *)
Local Abbreviation ink_transform paths :=
  ("transform=" ++ DQ
   ++ "translate(" ++ toFixed 2 (offsetX (inkCentering (inkBounds paths))) ++ ","
   ++ toFixed 2 (offsetY (inkCentering (inkBounds paths))) ++ ")"
   ++ " scale(" ++ toFixed 4 (scale (inkCentering (inkBounds paths))) ++ ")"
   ++ " translate(" ++ toFixed 2 (- bx (inkBounds paths)) ++ ","
   ++ toFixed 2 (- by_ (inkBounds paths)) ++ ")" ++ DQ)%string.

Lemma generateSvgBlob_text (paths : list Stroke) :
  generateSvgBlob Number_toString toFixed paths
  = (ink_root ++ "<g" ++ (" " ++ ink_transform paths)
     ++ String ">" (String.concat EmptyString (map (pathElement Number_toString toFixed) paths)
                    ++ "</g></svg>"))%string.
Proof.
  unfold generateSvgBlob. cbn zeta. rewrite text_of_300.
  unfold ink_root. rewrite !append_assoc. reflexivity.
Qed.

(** X17.  A drawing of the canvas that goes through the upload: the
    normaliser reads the bounds 0 0 300 300 from the encoder's root tag, so
    its scale is 1 and its offsets are 0; it puts the canonical root tag in
    place of the encoder's, and, the encoder having written a group already,
    it adds its own transform attribute to that group after the encoder's,
    leaving the paths as they are. *)
Theorem normalize_of_ink_drawing (paths : list Stroke) :
  Number "0" = 0 -> Number "300" = 300 ->
  (forall n x, string_forallb not_gt (toFixed n x) = true) ->
  let blob := generateSvgBlob Number_toString toFixed paths in
  resolveBounds Number parseFloat blob = mkBounds 0 0 300 300
  /\ normalizeCentering (resolveBounds Number parseFloat blob) = mkCentering 1 0 0
  /\ normalizeSvg Number parseFloat Number_toString blob
     = (canonical_root ++ "<g " ++ ink_transform paths ++ " "
        ++ normalizeTransform Number_toString (mkCentering 1 0 0) ++ ">"
        ++ String.concat EmptyString (map (pathElement Number_toString toFixed) paths)
        ++ "</g></svg>")%string.
Proof.
  intros N0 N300 NoGt. cbn zeta. rewrite generateSvgBlob_text.
  set (body := (String.concat EmptyString _ ++ "</g></svg>")%string).
  set (gattrs := (" " ++ ink_transform paths)%string).
  assert (resolveBounds Number parseFloat (ink_root ++ "<g" ++ gattrs ++ String ">" body)
          = mkBounds 0 0 300 300) as B.
  { unfold resolveBounds.
    change (match_attribute "viewBox" (ink_root ++ "<g" ++ gattrs ++ String ">" body))
      with (Some "0 0 300 300"%string).
    cbv beta iota.
    change (split_spaces "0 0 300 300") with ["0"; "0"; "300"; "300"]%string.
    cbn [map nth]. rewrite N0, N300. reflexivity. }
  split; [exact B|]. split; [rewrite B; reflexivity|].
  unfold normalizeSvg. rewrite B.
  change (normalizeCentering (mkBounds 0 0 300 300)) with (mkCentering 1 0 0).
  assert (string_forallb not_gt gattrs = true) as Hg.
  { subst gattrs. rewrite !string_forallb_app, !NoGt. reflexivity. }
  change (ink_root ++ "<g" ++ gattrs ++ String ">" body)%string
    with ("<svg" ++ (" xmlns=" ++ DQ ++ "http://www.w3.org/2000/svg" ++ DQ
                     ++ " width=" ++ DQ ++ "300" ++ DQ ++ " height=" ++ DQ ++ "300" ++ DQ
                     ++ " viewBox=" ++ DQ ++ "0 0 300 300" ++ DQ)
          ++ String ">" ("<g" ++ gattrs ++ String ">" body))%string.
  rewrite rewriteSvg_rooted by reflexivity.
  change (includes "<g" ("<g" ++ gattrs ++ String ">" body)) with true. cbn [negb].
  rewrite (replace_tag_here "<g" _ _ gattrs body (tag_here_app "<g" gattrs body Hg)).
  subst gattrs body. rewrite !append_assoc. reflexivity.
Qed.

End NormalisedText.

(** ** Edge cases of the geometry *)

Section BoundsEdges.

Local Open Scope float_scope.

Variable Number : string -> float.
Variable parseFloat : string -> float.

Lemma mul_nan_r (x : float) : x * nan = nan.
Proof.
  apply Prim2SF_inj. rewrite mul_spec. change (Prim2SF nan) with S754_nan.
  destruct (Prim2SF x); reflexivity.
Qed.

Lemma Math_max_nan_r (a : float) : Math_max a nan = nan.
Proof.
  unfold Math_max. change (is_nan nan) with true. rewrite orb_true_r. reflexivity.
Qed.

Lemma split_spaces_no_space (v : string) :
  string_forallb (fun c => negb (is_space c)) v = true -> split_spaces v = [v].
Proof.
  induction v as [|c v IH]; cbn [string_forallb split_spaces]; [reflexivity|].
  intro H. apply andb_true_iff in H. destruct H as [Hc Hv].
  apply negb_true_iff in Hc. rewrite Hc, (IH Hv). reflexivity.
Qed.

(** X18.  A [viewBox] that lists fewer than four numbers between white
    space, as one written with commas does, leaves the height undefined: the
    scale and both offsets that [normalizeSvg] writes are then NaN, whatever
    the numbers are. *)
Theorem short_viewBox_gives_NaN (svgContent v : string) :
  match_attribute "viewBox" svgContent = Some v ->
  List.length (split_spaces v) < 4 ->
  normalizeCentering (resolveBounds Number parseFloat svgContent)
  = mkCentering nan nan nan.
Proof.
  intros V L. unfold resolveBounds. rewrite V.
  assert (nth 3 (map Number (split_spaces v)) nan = nan) as H.
  { apply nth_overflow. rewrite length_map. lia. }
  unfold normalizeCentering. cbn [bx by_ bwidth bheight]. rewrite H.
  rewrite Math_max_nan_r. change (targetSize / nan) with nan.
  rewrite !mul_nan_r. change ((targetSize - nan) / 2) with nan.
  rewrite !nan_sub. reflexivity.
Qed.

End BoundsEdges.

Section InkEdges.

Local Open Scope float_scope.

Lemma ltb_zero_asym (z : float) : (0 <? z) = true -> (z <? 0) = false.
Proof.
  rewrite !ltb_spec. change (Prim2SF 0) with (S754_zero false).
  destruct (Prim2SF z) as [s|s| |s m e]; try destruct s; cbn; congruence.
Qed.

Lemma Math_max_zero_not_negative (z : float) : (Math_max 0 z <? 0) = false.
Proof.
  unfold Math_max. change (is_nan 0) with false. cbn [orb].
  destruct (is_nan z); [reflexivity|].
  destruct (0 <? z) eqn:P; [apply ltb_zero_asym; exact P|].
  destruct (z <? 0); reflexivity.
Qed.

(** X19.  The padded box of a drawing never starts left of or above the
    origin: whatever the strokes, its x and its y are never below 0. *)
Theorem ink_origin_not_negative (paths : list Stroke) :
  (bx (inkBounds paths) <? 0) = false /\ (by_ (inkBounds paths) <? 0) = false.
Proof. split; apply Math_max_zero_not_negative. Qed.

End InkEdges.

(** ** From the canvas to the bucket *)

Section InkChain.

Arguments storage_key : simpl never.

Variable Number : string -> float.
Variable parseFloat : string -> float.
Variable Number_toString : float -> string.
Variable toFixed : nat -> float -> string.
Variable randomUUID : nat -> string.
Variable put_accepted : string -> bool.

Local Abbreviation upload :=
  (handleSvgUpload Number parseFloat Number_toString randomUUID put_accepted).
Local Abbreviation path_elements paths :=
  (String.concat EmptyString (map (pathElement Number_toString toFixed) paths)).

Lemma concat_cons_empty (l : list string) :
  String.concat EmptyString (EmptyString :: l) = String.concat EmptyString l.
Proof. destruct l; reflexivity. Qed.

Lemma concat_cons (x : string) (l : list string) :
  String.concat EmptyString (x :: l) = (x ++ String.concat EmptyString l)%string.
Proof. destruct l; cbn; [rewrite append_empty_r|]; reflexivity. Qed.

(** X20.  The encoder writes a path element for the strokes of two points
    or more, in their order, and nothing for a stroke of fewer; the save
    handlers of the canvas do nothing without a stroke, and with strokes they
    hand over the document even when every stroke is a single point, in which
    case the document holds no path element at all. *)
Theorem short_strokes_leave_no_path (paths : list Stroke) :
  path_elements paths
  = path_elements (filter (fun p => Nat.leb 2 (List.length (points p))) paths)
  /\ ((forall p, In p paths -> List.length (points p) < 2) ->
      path_elements paths = EmptyString)
  /\ handleSaveAndClose Number_toString toFixed [] = None
  /\ handleSaveAndContinue Number_toString toFixed [] = None
  /\ (paths <> [] ->
      handleSaveAndClose Number_toString toFixed paths
      = Some (generateSvgBlob Number_toString toFixed paths, false)
      /\ handleSaveAndContinue Number_toString toFixed paths
         = Some (generateSvgBlob Number_toString toFixed paths, true)).
Proof.
  split; [|split; [|split; [reflexivity|split; [reflexivity|]]]].
  - induction paths as [|p paths IH]; [reflexivity|].
    cbn [map filter]. destruct (Nat.leb 2 (List.length (points p))) eqn:L.
    + cbn [map]. rewrite !concat_cons, IH. reflexivity.
    + assert (pathElement Number_toString toFixed p = EmptyString) as E.
      { unfold pathElement. apply Nat.leb_gt in L. apply Nat.ltb_lt in L. rewrite L.
        reflexivity. }
      rewrite E, concat_cons_empty. exact IH.
  - intro H. induction paths as [|p paths IH]; [reflexivity|].
    cbn [map].
    assert (pathElement Number_toString toFixed p = EmptyString) as E.
    { unfold pathElement. pose proof (H p (or_introl eq_refl)) as L.
      apply Nat.ltb_lt in L. rewrite L. reflexivity. }
    rewrite E, concat_cons_empty. apply IH. intros q Hq. apply H. right. exact Hq.
  - intro H. destruct paths; [contradiction|]. split; reflexivity.
Qed.

(** X21.  A drawing saved from the canvas reaches the bucket normalised.
    With at least one stroke and a bucket that accepts the put, the save
    hands the encoded document to the client, which sends it as the one file
    [handwriting-stamp.svg] of type SVG under its message id; the worker
    answers with status 200 and one descriptor of that name, stores the
    normalised document under the key of that name, and serves it there; the
    client appends the descriptor to its pending attachments. *)
Theorem handwriting_is_stored_normalized
    (room : option string) (name stamp nanoid8 : string) (paths : list Stroke)
    (a : AppState) (env : Env) :
  paths <> [] -> nanoid8 <> EmptyString ->
  (forall key, put_accepted key = true) ->
  let blob := generateSvgBlob Number_toString toFixed paths in
  let mid := or_default (currentMessageId a) nanoid8 in
  let filename := ("handwriting-" ++ stamp ++ ".svg")%string in
  let key := storage_key (sanitize (or_default room "default"))
               (sanitize (or_default (Some name) "anonymous")) (sanitize mid) filename in
  let sent := handleHandwritingSave room name blob stamp nanoid8 a in
  handleSaveAndClose Number_toString toFixed paths = Some (blob, false)
  /\ fst sent = mkApp (view a) (pendingSvgs a) (Some mid)
  /\ exists fileId,
       fst (upload (snd sent) env)
       = mkResponse 200 (BodySvgs [mkSvg fileId ("/api/svg/" ++ key) filename])
       /\ handleSvgGet key (snd (upload (snd sent) env))
          = mkSvgResponse 200 (normalizeSvg Number parseFloat Number_toString blob)
              [("Content-Type", "image/svg+xml");
               ("Cache-Control", "public, max-age=31536000")]
       /\ upload_settled (fst (upload (snd sent) env)) (fst sent)
          = mkApp (view a)
              (pendingSvgs a ++ [mkSvg fileId ("/api/svg/" ++ key) filename]) (Some mid).
Proof.
  intros Hp Hn Acc. cbn zeta.
  set (blob := generateSvgBlob Number_toString toFixed paths).
  set (mid := or_default (currentMessageId a) nanoid8).
  set (filename := ("handwriting-" ++ stamp ++ ".svg")%string).
  assert (mid <> EmptyString) as Hmid by (apply or_default_nonempty; exact Hn).
  split; [destruct paths; [contradiction|reflexivity]|]. split; [reflexivity|].
  unfold handleHandwritingSave. cbn [snd fst]. fold mid. fold filename.
  set (file := mkFile filename "image/svg+xml" blob).
  set (form := mkForm [file] (Some (or_default room "default")) (Some name) (Some mid)).
  set (request := upload_request room name [file] mid).
  assert (formData request = Some form) as F by reflexivity.
  assert (form_svgs form <> []) as Hne by discriminate.
  destruct (upload_accepted Number parseFloat Number_toString randomUUID put_accepted
              request form env eq_refl F Hne Acc) as [uploaded R].
  destruct (handleSvgUpload_bucket Number parseFloat Number_toString randomUUID put_accepted
              request env) as [[_ C]|[form' [stored [F' [M [B [_ [_ N]]]]]]]];
    [exfalso; exact (C uploaded R)|].
  rewrite F in F'. injection F' as <-.
  destruct (N uploaded R) as [Es [Fn [Ur _]]].
  assert (filter is_svg_file (form_svgs form) = [file]) as Ev by reflexivity.
  rewrite Ev in Es. subst stored.
  assert (message_id_of randomUUID form env = mid) as Em.
  { unfold message_id_of. subst form. cbn [form_messageId].
    destruct mid; [contradiction|reflexivity]. }
  rewrite Em in Ur, B. subst form. cbn [form_room form_user map file_name file] in Ur, Fn, B.
  rewrite (or_default_Some (or_default room "default") "default") in Ur, B
    by (apply or_default_nonempty; discriminate).
  destruct uploaded as [|d [|d' up]]; try discriminate Fn.
  cbn [map] in Fn, Ur.
  pose proof (f_equal (hd EmptyString) Fn) as Fd. pose proof (f_equal (hd EmptyString) Ur) as Ud.
  cbn [hd] in Fd, Ud.
  exists (svg_id d).
  assert (d = mkSvg (svg_id d)
                ("/api/svg/"
                 ++ storage_key (sanitize (or_default room "default"))
                      (sanitize (or_default (Some name) "anonymous")) (sanitize mid) filename)
                filename) as Ed.
  { destruct d as [i u f]. cbn in Fd, Ud |- *. rewrite Fd, Ud. reflexivity. }
  rewrite <- Ed. split; [exact R|]. split.
  - unfold handleSvgGet. rewrite B. cbn [rev map app bucket_get file_text file].
    rewrite String.eqb_refl. reflexivity.
  - rewrite R. reflexivity.
Qed.

End InkChain.

(** ** The name of the client *)

Lemma trimStart_starts (s : string) : starts_with_space (trimStart s) = false.
Proof.
  induction s as [|c s IH]; cbn [trimStart]; [reflexivity|].
  destruct (is_space c) eqn:E; [exact IH|]. cbn [starts_with_space]. exact E.
Qed.

Lemma trimEnd_ends (s : string) : ends_with_space (trimEnd s) = false.
Proof.
  induction s as [|c s IH]; cbn [trimEnd]; [reflexivity|].
  destruct (trimEnd s) as [|d t] eqn:T.
  - destruct (is_space c) eqn:E; [reflexivity|]. cbn [ends_with_space]. exact E.
  - cbn [ends_with_space] in IH |- *. exact IH.
Qed.

Lemma trimEnd_starts (s : string) :
  starts_with_space s = false -> starts_with_space (trimEnd s) = false.
Proof.
  destruct s as [|c s]; cbn [trimEnd starts_with_space]; [reflexivity|].
  intro E. destruct (trimEnd s); [rewrite E|]; cbn [starts_with_space]; exact E.
Qed.

Lemma trimStart_fixed (s : string) : starts_with_space s = false -> trimStart s = s.
Proof.
  destruct s as [|c s]; cbn [starts_with_space trimStart]; [reflexivity|].
  intro E. rewrite E. reflexivity.
Qed.

Lemma trimEnd_fixed (s : string) : ends_with_space s = false -> trimEnd s = s.
Proof.
  induction s as [|c s IH]; cbn [trimEnd]; [reflexivity|].
  destruct s as [|d t].
  - cbn [ends_with_space trimEnd]. intro E. rewrite E. reflexivity.
  - intro E. cbn [ends_with_space] in E. rewrite (IH E). reflexivity.
Qed.

Lemma trimEnd_blank (s : string) :
  trimEnd s = EmptyString <-> string_forallb is_space s = true.
Proof.
  induction s as [|c s IH]; cbn [trimEnd string_forallb]; [split; reflexivity|].
  destruct (trimEnd s) as [|d t].
  - destruct (is_space c); cbn [andb].
    + split; [intros _; apply IH; reflexivity|reflexivity].
    + split; discriminate.
  - split; [discriminate|]. intro H. apply andb_true_iff in H. destruct H as [_ H].
    apply IH in H. discriminate H.
Qed.

Lemma trimStart_blank (s : string) :
  string_forallb is_space (trimStart s) = string_forallb is_space s.
Proof.
  induction s as [|c s IH]; cbn [trimStart string_forallb]; [reflexivity|].
  destruct (is_space c) eqn:E; [exact IH|]. cbn [string_forallb]. rewrite E. reflexivity.
Qed.

(** X22.  The name a client enters: the modal hands over the trimmed input,
    which is never empty and has no white space at either end, so trimming it
    again changes nothing; an input of white space only hands over
    nothing. *)
Theorem entered_name_is_trimmed (inputName : string) :
  (string_forallb is_space inputName = true <->
   NameInputModal_handleSubmit inputName = None)
  /\ forall name,
       NameInputModal_handleSubmit inputName = Some name ->
       name = trim inputName /\ name <> EmptyString
       /\ starts_with_space name = false /\ ends_with_space name = false
       /\ NameInputModal_handleSubmit name = Some name.
Proof.
  unfold NameInputModal_handleSubmit. cbn zeta.
  assert (starts_with_space (trim inputName) = false) as S
    by (apply trimEnd_starts, trimStart_starts).
  assert (ends_with_space (trim inputName) = false) as E by apply trimEnd_ends.
  assert (trim (trim inputName) = trim inputName) as T.
  { unfold trim at 1. rewrite (trimStart_fixed _ S). apply trimEnd_fixed. exact E. }
  split.
  - rewrite <- trimStart_blank, <- trimEnd_blank. fold (trim inputName).
    destruct (trim inputName); split; try reflexivity; discriminate.
  - intros name H. destruct (trim inputName) as [|c t] eqn:Tr; [discriminate H|].
    injection H as <-. split; [reflexivity|]. split; [discriminate|].
    split; [exact S|]. split; [exact E|]. rewrite T. reflexivity.
Qed.

(** ** Worked instances *)

Lemma add_uses_the_rendered_index_witness :
  In (id hello_by_bob) (ids [hello])
  /\ client_onMessage [hello] (Add hello_by_bob)
       ([hello] ++ [mkChat "m2" "yo" "Carol" RoleUser None None])
     = [hello_by_bob; mkChat "m2" "yo" "Carol" RoleUser None None].
Proof.
  assert (In (id hello_by_bob) (ids [hello])) as H by (left; reflexivity).
  split; [exact H|].
  exact (proj1 (add_uses_the_rendered_index [hello]
                  [mkChat "m2" "yo" "Carol" RoleUser None None] [] hello_by_bob) H).
Defined.

Lemma picked_files_become_attachments_witness :
  let files := [svg_file "a.svg"; png_file] in
  let a := mkApp [] [] None in
  ("n8" <> EmptyString /\ filter client_accepts files <> []
   /\ forall key, accept_all key = true)
  /\ exists request uploaded env',
       handleFileSelect (Some "lobby") "Alice" files "n8" a
       = Some (mkApp [] [] (Some "n8"), request)
       /\ handleSvgUpload sample_Number sample_Number sample_toString sample_uuid
            accept_all request fresh_env
          = (mkResponse 200 (BodySvgs uploaded), env')
       /\ map filename uploaded = ["a.svg"].
Proof.
  cbn zeta.
  assert ("n8" <> EmptyString) as Hn by discriminate.
  assert (filter client_accepts [svg_file "a.svg"; png_file] <> []) as Hf by discriminate.
  assert (forall key, accept_all key = true) as Acc by reflexivity.
  split; [repeat split; assumption|].
  destruct (picked_files_become_attachments sample_Number sample_Number sample_toString
              sample_uuid accept_all (Some "lobby") "Alice" "n8"
              [svg_file "a.svg"; png_file] (mkApp [] [] None) fresh_env Hn Hf Acc)
    as [request [uploaded [env' [S [R [Fn _]]]]]].
  exists request, uploaded, env'. split; [exact S|]. split; [exact R|exact Fn].
Defined.

Lemma sample_toString_no_lt (x : float) : string_forallb not_lt (sample_toString x) = true.
Proof.
  unfold sample_toString.
  repeat match goal with |- context [if ?b then _ else _] => destruct b end; reflexivity.
Qed.

Lemma normalize_wraps_content_in_group_witness :
  (sample_toString targetSize = "300"
   /\ (forall x, string_forallb not_lt (sample_toString x) = true))
  /\ normalizeSvg sample_Number sample_Number sample_toString tall_doc
     = tall_doc_normalized.
Proof.
  assert (sample_toString targetSize = "300") as T by reflexivity.
  split; [split; [exact T|exact sample_toString_no_lt]|].
  pose proof (normalize_wraps_content_in_group sample_Number sample_Number sample_toString T
                (" viewBox=" ++ DQ ++ "0 0 50 200" ++ DQ)
                ("<path d=" ++ DQ ++ "M0 0L50 200" ++ DQ ++ "/>") EmptyString
                sample_toString_no_lt eq_refl eq_refl eq_refl eq_refl) as W.
  cbn zeta in W.
  change ("<svg" ++ (" viewBox=" ++ DQ ++ "0 0 50 200" ++ DQ) ++ ">"
          ++ ("<path d=" ++ DQ ++ "M0 0L50 200" ++ DQ ++ "/>") ++ "</svg>" ++ "")%string
    with tall_doc in W.
  rewrite W. vm_compute. reflexivity.
Defined.

Lemma sample_toFixed_no_gt (n : nat) (x : float) :
  string_forallb not_gt (sample_toFixed n x) = true.
Proof.
  unfold sample_toFixed.
  repeat match goal with |- context [if ?b then _ else _] => destruct b end; reflexivity.
Qed.

Lemma normalize_of_ink_drawing_witness :
  (ink_toString targetSize = "300" /\ sample_Number "0" = 0%float
   /\ sample_Number "300" = 300%float
   /\ forall n x, string_forallb not_gt (sample_toFixed n x) = true)
  /\ normalizeSvg sample_Number sample_Number ink_toString
       (generateSvgBlob ink_toString sample_toFixed diagonal)
     = diagonal_stored.
Proof.
  assert (ink_toString targetSize = "300") as T by reflexivity.
  assert (sample_Number "0" = 0%float) as N0 by reflexivity.
  assert (sample_Number "300" = 300%float) as N300 by reflexivity.
  split; [repeat split; try assumption; exact sample_toFixed_no_gt|].
  destruct (normalize_of_ink_drawing sample_Number sample_Number ink_toString sample_toFixed
              T diagonal N0 N300 sample_toFixed_no_gt) as [_ [_ W]].
  rewrite W. vm_compute. reflexivity.
Defined.

Lemma short_viewBox_gives_NaN_witness :
  (match_attribute "viewBox" comma_doc = Some "0,0,50,200"
   /\ List.length (split_spaces "0,0,50,200") < 4)
  /\ normalizeCentering (resolveBounds sample_Number sample_Number comma_doc)
     = mkCentering nan nan nan.
Proof.
  assert (match_attribute "viewBox" comma_doc = Some "0,0,50,200") as V by reflexivity.
  assert (List.length (split_spaces "0,0,50,200") < 4) as L by (change (1 < 4); lia).
  split; [split; assumption|].
  exact (short_viewBox_gives_NaN sample_Number sample_Number comma_doc "0,0,50,200" V L).
Defined.

Lemma handwriting_is_stored_normalized_witness :
  (diagonal <> [] /\ "n8" <> EmptyString /\ forall key, accept_all key = true)
  /\ exists fileId,
       handleSvgGet "svgs/lobby/Alice/n8/handwriting-1700000000000.svg"
         (snd (handleSvgUpload sample_Number sample_Number ink_toString sample_uuid accept_all
                 (snd (handleHandwritingSave (Some "lobby") "Alice"
                         (generateSvgBlob ink_toString sample_toFixed diagonal)
                         "1700000000000" "n8" (mkApp [] [] None)))
                 fresh_env))
       = mkSvgResponse 200
           (normalizeSvg sample_Number sample_Number ink_toString
              (generateSvgBlob ink_toString sample_toFixed diagonal))
           [("Content-Type", "image/svg+xml");
            ("Cache-Control", "public, max-age=31536000")]
       /\ fileId = "uuid-0".
Proof.
  assert (diagonal <> []) as Hp by discriminate.
  assert ("n8" <> EmptyString) as Hn by discriminate.
  assert (forall key, accept_all key = true) as Acc by reflexivity.
  split; [repeat split; assumption|].
  destruct (handwriting_is_stored_normalized sample_Number sample_Number ink_toString
              sample_toFixed sample_uuid accept_all (Some "lobby") "Alice" "1700000000000"
              "n8" diagonal (mkApp [] [] None) fresh_env Hp Hn Acc)
    as [_ [_ [fileId [R [G _]]]]].
  exists "uuid-0". split; [exact G|reflexivity].
Defined.
